(** * Carry-Connect: the delivery lifecycle and the review subsystem

    A shallow embedding of [shared/schema.ts], [server/storage.ts] and
    [server/routes.ts].

    - JavaScript numbers that the code uses as identifiers, ratings, weights,
      fees and timestamps are integers ([Z]); the one place where the code
      divides ([updateUserRating]) is done over the rationals ([Q]).
    - [req.body] and [req.query] are JavaScript objects used as maps: finite
      maps from field names to values.
    - A JavaScript [Map] iterates in insertion order and [set] on a present
      key keeps the key's position: an association list.
    - The storage classes mutate their fields; here every method takes the
      store and returns the new one.
    - A route handler ends in [res.status(c).json(...)]: the handlers return
      the store and a [Response]. *)

From Stdlib Require Import QArith Qround.
From stdpp Require Import gmap strings list sorting.

Set Warnings "-clear-no-such-hyp".

Local Open Scope string_scope.
Local Open Scope Z_scope.

(** ** shared/schema.ts *)

Inductive PackageSize := small | medium | large.
Inductive DeliveryStatus := requested | accepted | picked | delivered.
Inductive UserRole := sender | carrier | both.

Global Instance PackageSize_eq_dec : EqDecision PackageSize.
Proof. solve_decision. Defined.
Global Instance DeliveryStatus_eq_dec : EqDecision DeliveryStatus.
Proof. solve_decision. Defined.
Global Instance UserRole_eq_dec : EqDecision UserRole.
Proof. solve_decision. Defined.

(** [deliveryStatusEnum.enumValues] and the spelling of each value. *)
Definition status_name (s : DeliveryStatus) : string :=
  match s with
  | requested => "requested"
  | accepted => "accepted"
  | picked => "picked"
  | delivered => "delivered"
  end.

Definition enumValues : list DeliveryStatus :=
  [requested; accepted; picked; delivered].

Definition size_name (s : PackageSize) : string :=
  match s with
  | small => "small"
  | medium => "medium"
  | large => "large"
  end.

Definition packageSizes : list PackageSize := [small; medium; large].

(** The value of [enum] whose spelling is [s], if any. *)
Definition parse_enum {A} (name : A → string) (enum : list A) (s : string)
  : option A :=
  List.find (λ a, bool_decide (name a = s)) enum.

(** [s] is the name of a value of the enum. *)
Definition enum_label_of {A} (name : A → string) (enum : list A) (s : string)
  : Prop :=
  is_Some (parse_enum name enum s).

(** Table [users]. [rating] and [total_reviews] are nullable columns. *)
Record User := mkUser {
  user_id : Z;
  username : string;
  password : string;
  fullName : string;
  role : UserRole;
  user_rating : option Z;
  totalReviews : option Z;
}.

(** Table [deliveries]. [carrier_id], [description] and
    [special_instructions] are nullable; [created_at] is kept as the
    number of milliseconds that [new Date(createdAt).getTime()] yields. *)
Record Delivery := mkDelivery {
  delivery_id : Z;
  senderId : Z;
  carrierId : option Z;
  pickupLocation : string;
  dropLocation : string;
  packageSize : PackageSize;
  packageWeight : Z;
  description : option string;
  specialInstructions : option string;
  preferredDeliveryDate : string;
  preferredDeliveryTime : string;
  status : DeliveryStatus;
  deliveryFee : Z;
  delivery_createdAt : Z;
}.

(** Table [reviews]. *)
Record Review := mkReview {
  review_id : Z;
  deliveryId : Z;
  reviewerId : Z;
  revieweeId : Z;
  rating : Z;
  comment : option string;
  review_createdAt : Z;
}.

(** [InsertUser]: [users] without [id], [rating], [totalReviews]. *)
Record InsertUser := mkInsertUser {
  iu_username : string;
  iu_password : string;
  iu_fullName : string;
  iu_role : UserRole;
}.

(** [InsertDelivery] / [CreateDeliveryInput]: [deliveries] without [id],
    [carrierId], [status], [createdAt]. *)
Record InsertDelivery := mkInsertDelivery {
  id_senderId : Z;
  id_pickupLocation : string;
  id_dropLocation : string;
  id_packageSize : PackageSize;
  id_packageWeight : Z;
  id_description : option string;
  id_specialInstructions : option string;
  id_preferredDeliveryDate : string;
  id_preferredDeliveryTime : string;
  id_deliveryFee : Z;
}.

(** [InsertReview]: [reviews] without [id], [createdAt]. *)
Record InsertReview := mkInsertReview {
  ir_deliveryId : Z;
  ir_reviewerId : Z;
  ir_revieweeId : Z;
  ir_rating : Z;
  ir_comment : option string;
}.

(** ** JSON values of a request body *)

Inductive jsval :=
  | JNull
  | JNum (n : Z)
  | JStr (s : string).

(** A JavaScript object: field name to value; an absent key reads
    [undefined]. *)
Abbreviation jsobject := (gmap string jsval).

(** [z.number()] on a field. *)
Definition zod_number (o : jsobject) (k : string) : option Z :=
  match o !! k with
  | Some (JNum n) => Some n
  | _ => None
  end.

(** [z.string()] on a field. *)
Definition zod_string (o : jsobject) (k : string) : option string :=
  match o !! k with
  | Some (JStr s) => Some s
  | _ => None
  end.

(** A nullable text column: [z.string().nullable().optional()]. The outer
    [option] is the success of the parse, the inner one the value. *)
Definition zod_string_opt (o : jsobject) (k : string)
  : option (option string) :=
  match o !! k with
  | None | Some JNull => Some None
  | Some (JStr s) => Some (Some s)
  | Some (JNum _) => None
  end.

(** [z.string().min(1, ...)]. *)
Definition zod_string_min1 (o : jsobject) (k : string) : option string :=
  s ← zod_string o k;
  if bool_decide (s = "") then None else Some s.

(** [z.number().min(1, ...)]. *)
Definition zod_number_min1 (o : jsobject) (k : string) : option Z :=
  n ← zod_number o k;
  if bool_decide (1 ≤ n) then Some n else None.

(** [z.enum(["small", "medium", "large"])]. *)
Definition zod_packageSize (o : jsobject) (k : string) : option PackageSize :=
  s ← zod_string o k;
  parse_enum size_name packageSizes s.

(** [createDeliverySchema.parse]: [None] stands for the [ZodError]. A zod
    object schema reads its own keys and drops every other key of the
    input; [id], [carrierId], [status], [createdAt] are omitted from the
    schema. *)
Definition createDeliverySchema (o : jsobject) : option InsertDelivery :=
  sid ← zod_number o "senderId";
  pickup ← zod_string_min1 o "pickupLocation";
  drop ← zod_string_min1 o "dropLocation";
  size ← zod_packageSize o "packageSize";
  weight ← zod_number_min1 o "packageWeight";
  descr ← zod_string_opt o "description";
  instr ← zod_string_opt o "specialInstructions";
  date ← zod_string o "preferredDeliveryDate";
  time ← zod_string o "preferredDeliveryTime";
  fee ← zod_number_min1 o "deliveryFee";
  Some (mkInsertDelivery sid pickup drop size weight descr instr date time fee).

(** [insertReviewSchema.parse]: the column types of [reviews] and nothing
    else; [rating] is an [integer] column without a range. *)
Definition insertReviewSchema (o : jsobject) : option InsertReview :=
  did ← zod_number o "deliveryId";
  rid ← zod_number o "reviewerId";
  eid ← zod_number o "revieweeId";
  r ← zod_number o "rating";
  c ← zod_string_opt o "comment";
  Some (mkInsertReview did rid eid r c).

(** ** JavaScript helpers *)

(** Truthiness of an optional number: [undefined], [null] and [0] are
    falsy. *)
Definition truthy_num (c : option Z) : bool :=
  match c with
  | Some n => negb (n =? 0)
  | None => false
  end.

(** Truthiness of an optional string: [undefined] and the empty string are
    falsy. *)
Definition truthy_str (s : option string) : bool :=
  match s with
  | Some s => negb (bool_decide (s = ""))
  | None => false
  end.

(** [Math.round]: the nearest integer, a tie going to the larger one. *)
Definition Math_round (x : Q) : Z := Qfloor (x + (1 # 2))%Q.

(** [Map<number, V>]: [get], [set], [values] in insertion order. *)
Module JsMap.

Definition t (V : Type) : Type := list (Z * V).

Definition get {V} (k : Z) (m : t V) : option V :=
  snd <$> List.find (λ p, bool_decide (p.1 = k)) m.

Fixpoint set {V} (k : Z) (v : V) (m : t V) : t V :=
  match m with
  | [] => [(k, v)]
  | (k', v') :: m' =>
      if bool_decide (k' = k) then (k, v) :: m' else (k', v') :: set k v m'
  end.

Definition values {V} (m : t V) : list V := m.*2.

End JsMap.

(** [Array.prototype.sort(cmp)]: a stable sort; [x] is put before the first
    element that [cmp] does not order before it. *)
Fixpoint sort_insert {A} (cmp : A → A → Z) (x : A) (l : list A) : list A :=
  match l with
  | [] => [x]
  | y :: l' =>
      if cmp x y <=? 0 then x :: y :: l' else y :: sort_insert cmp x l'
  end.

Definition Array_sort {A} (cmp : A → A → Z) (l : list A) : list A :=
  foldr (sort_insert cmp) [] l.

(** The comparator of every listing: [dateB - dateA]. *)
Definition newest_first (a b : Delivery) : Z :=
  delivery_createdAt b - delivery_createdAt a.

(** [DeliveryWithUser]: the delivery's own fields, the embedded [sender]
    and, when present, the embedded [carrier] object. *)
Record DeliveryWithUser := mkDeliveryWithUser {
  dwu_delivery : Delivery;
  dwu_sender : option jsobject;
  dwu_carrier : option jsobject;
}.

Definition role_name (r : UserRole) : string :=
  match r with
  | sender => "sender"
  | carrier => "carrier"
  | both => "both"
  end.

Definition js_opt_num (n : option Z) : jsval :=
  match n with
  | Some n => JNum n
  | None => JNull
  end.

(** The four equality tests of a listing, [d.status === filters.status]
    and the like; an absent filter reads [undefined] and equals no string. *)
Definition eq_status (filters : gmap string string) (d : Delivery) : bool :=
  bool_decide (Some (status_name (status d)) = filters !! "status").

Definition eq_pickupLocation (filters : gmap string string) (d : Delivery)
  : bool :=
  bool_decide (Some (pickupLocation d) = filters !! "pickupLocation").

Definition eq_dropLocation (filters : gmap string string) (d : Delivery)
  : bool :=
  bool_decide (Some (dropLocation d) = filters !! "dropLocation").

Definition eq_packageSize (filters : gmap string string) (d : Delivery)
  : bool :=
  bool_decide (Some (size_name (packageSize d)) = filters !! "packageSize").

(** ** server/storage.ts: class MemStorage *)

Module MemStorage.

(** The counters [userId], [deliveryId], [reviewId] carry a [next_] prefix:
    [deliveryId] is a field of [Review] too. *)
Record t := mk {
  usersData : JsMap.t User;
  deliveriesData : JsMap.t Delivery;
  reviewsData : JsMap.t Review;
  next_userId : Z;
  next_deliveryId : Z;
  next_reviewId : Z;
}.

Definition createUser (insertUser : InsertUser) (st : t) : t * User :=
  let id := next_userId st in
  let user :=
    mkUser id (iu_username insertUser) (iu_password insertUser)
      (iu_fullName insertUser) (iu_role insertUser) (Some 0) (Some 0) in
  (mk (JsMap.set id user (usersData st)) (deliveriesData st) (reviewsData st)
      (id + 1) (next_deliveryId st) (next_reviewId st),
   user).

(** [senderSafe] / [carrierSafe]. *)
Definition userSafe (u : User) : jsobject :=
  <["id" := JNum (user_id u)]>
  (<["username" := JStr (username u)]>
  (<["fullName" := JStr (fullName u)]>
  (<["rating" := js_opt_num (user_rating u)]>
  (<["totalReviews" := js_opt_num (totalReviews u)]>
  (<["role" := JStr (role_name (role u))]> ∅))))).

Definition getDeliveriesWithFilters (filters : gmap string string) (st : t)
  : list DeliveryWithUser :=
  let deliveries := JsMap.values (deliveriesData st) in
  let deliveries :=
    if truthy_str (filters !! "status")
    then List.filter (eq_status filters) deliveries else deliveries in
  let deliveries :=
    if truthy_str (filters !! "pickupLocation")
    then List.filter (eq_pickupLocation filters) deliveries else deliveries in
  let deliveries :=
    if truthy_str (filters !! "dropLocation")
    then List.filter (eq_dropLocation filters) deliveries else deliveries in
  let deliveries :=
    if truthy_str (filters !! "packageSize")
    then List.filter (eq_packageSize filters) deliveries else deliveries in
  let deliveries := Array_sort newest_first deliveries in
  (λ delivery,
     let sender := JsMap.get (senderId delivery) (usersData st) in
     let carrier :=
       if truthy_num (carrierId delivery)
       then c ← carrierId delivery; JsMap.get c (usersData st)
       else None in
     mkDeliveryWithUser delivery (userSafe <$> sender) (userSafe <$> carrier))
  <$> deliveries.

Definition getDeliveryById (id : Z) (st : t) : option Delivery :=
  JsMap.get id (deliveriesData st).

Definition createDelivery (delivery : InsertDelivery) (now : Z) (st : t)
  : t * Delivery :=
  let id := next_deliveryId st in
  let createdDelivery :=
    mkDelivery id (id_senderId delivery) None
      (id_pickupLocation delivery) (id_dropLocation delivery)
      (id_packageSize delivery) (id_packageWeight delivery)
      (id_description delivery) (id_specialInstructions delivery)
      (id_preferredDeliveryDate delivery) (id_preferredDeliveryTime delivery)
      requested (id_deliveryFee delivery) now in
  (mk (usersData st) (JsMap.set id createdDelivery (deliveriesData st))
      (reviewsData st) (next_userId st) (id + 1) (next_reviewId st),
   createdDelivery).

(** [{ ...delivery, status, ...(carrierId && { carrierId }) }] *)
Definition with_status (d : Delivery) (s : DeliveryStatus) (c : option Z)
  : Delivery :=
  mkDelivery (delivery_id d) (senderId d)
    (if truthy_num c then c else carrierId d)
    (pickupLocation d) (dropLocation d) (packageSize d) (packageWeight d)
    (description d) (specialInstructions d)
    (preferredDeliveryDate d) (preferredDeliveryTime d)
    s (deliveryFee d) (delivery_createdAt d).

Definition updateDeliveryStatus (id : Z) (s : DeliveryStatus) (c : option Z)
  (st : t) : t * option Delivery :=
  match JsMap.get id (deliveriesData st) with
  | None => (st, None)
  | Some delivery =>
      let updatedDelivery := with_status delivery s c in
      (mk (usersData st) (JsMap.set id updatedDelivery (deliveriesData st))
          (reviewsData st) (next_userId st) (next_deliveryId st)
          (next_reviewId st),
       Some updatedDelivery)
  end.

Definition updateUserRating (userId : Z) (st : t) : t :=
  match JsMap.get userId (usersData st) with
  | None => st
  | Some user =>
      let userReviews :=
        List.filter (λ r, bool_decide (revieweeId r = userId))
          (JsMap.values (reviewsData st)) in
      if bool_decide (length userReviews = 0%nat) then st
      else
        let totalRating := foldl (λ sum review, sum + rating review) 0 userReviews in
        let averageRating :=
          Math_round (inject_Z totalRating
                      / inject_Z (Z.of_nat (length userReviews)))%Q in
        let updatedUser :=
          mkUser (user_id user) (username user) (password user)
            (fullName user) (role user) (Some averageRating)
            (Some (Z.of_nat (length userReviews))) in
        mk (JsMap.set userId updatedUser (usersData st)) (deliveriesData st)
           (reviewsData st) (next_userId st) (next_deliveryId st)
           (next_reviewId st)
  end.

Definition createReview (review : InsertReview) (now : Z) (st : t)
  : t * Review :=
  let id := next_reviewId st in
  let createdReview :=
    mkReview id (ir_deliveryId review) (ir_reviewerId review)
      (ir_revieweeId review) (ir_rating review) (ir_comment review) now in
  let st :=
    mk (usersData st) (deliveriesData st)
       (JsMap.set id createdReview (reviewsData st))
       (next_userId st) (next_deliveryId st) (id + 1) in
  (updateUserRating (ir_revieweeId review) st, createdReview).

Definition getReviewByDeliveryAndReviewer (did rid : Z) (st : t)
  : option Review :=
  List.find (λ r, bool_decide (deliveryId r = did) && bool_decide (reviewerId r = rid))
    (JsMap.values (reviewsData st)).

(** The constructor: empty maps, counters at 1. *)
Definition empty : t := mk [] [] [] 1 1 1.

(** [seedData], run by the constructor; [now] is the value of every
    [new Date()] of the run. *)
Definition seedData (now : Z) (st : t) : t :=
  let st := (createUser
    (mkInsertUser "john_sender" "password123" "John Sender" sender) st).1 in
  let st := (createUser
    (mkInsertUser "alice_carrier" "password123" "Alice Carrier" carrier) st).1 in
  let st := (createUser
    (mkInsertUser "bob_both" "password123" "Bob Both" both) st).1 in
  let st := (createDelivery
    (mkInsertDelivery 1 "Pune" "Mumbai" medium 3500 (Some "Electronics")
       (Some "Handle with care") "2023-06-22" "Before 6:00 PM" 30000)
    now st).1 in
  let st := (createDelivery
    (mkInsertDelivery 3 "Mumbai" "Bangalore" small 1000 (Some "Clothes")
       None "2023-06-24" "Before 2:00 PM" 50000)
    now st).1 in
  let st := (createDelivery
    (mkInsertDelivery 1 "Bangalore" "Pune" large 8000 (Some "Books")
       None "2023-06-23" "Before 8:00 PM" 60000)
    now st).1 in
  let st := (updateDeliveryStatus 1 accepted (Some 2) st).1 in
  let st := (updateDeliveryStatus 1 picked None st).1 in
  let st := (updateDeliveryStatus 2 accepted (Some 2) st).1 in
  (createReview (mkInsertReview 1 1 2 5 (Some "Excellent service!")) now st).1.

Definition new (now : Z) : t := seedData now empty.

End MemStorage.

(** ** server/storage.ts: class DatabaseStorage

    The tables are lists of rows in insertion order; [id] columns are
    [serial] (the sequence is part of the database); a [select ... where]
    is a filter, [update ... set ... where] rewrites the matching rows and
    [returning] yields them. *)

Module DatabaseStorage.

Record t := mk {
  users : list User;
  deliveries : list Delivery;
  reviews : list Review;
  users_id_seq : Z;
  deliveries_id_seq : Z;
  reviews_id_seq : Z;
}.

(** The columns selected for an embedded user. *)
Definition userColumns (u : User) : jsobject :=
  <["id" := JNum (user_id u)]>
  (<["username" := JStr (username u)]>
  (<["fullName" := JStr (fullName u)]>
  (<["rating" := js_opt_num (user_rating u)]>
  (<["totalReviews" := js_opt_num (totalReviews u)]> ∅)))).

(** [deliveries.status] and [deliveries.packageSize] are [pgEnum] columns:
    the database compares them with a label of the enum only, and refuses
    the query for any other string. *)
Definition enum_label {A} (name : A → string) (enum : list A)
    (value : option string) : bool :=
  match value with
  | Some v => bool_decide (is_Some (parse_enum name enum v))
  | None => true
  end.

(** The conditions that are pushed compare an enum column with one of its
    labels. *)
Definition conditions_accepted (filters : gmap string string) : bool :=
  (if truthy_str (filters !! "status")
   then enum_label status_name enumValues (filters !! "status") else true)
  && (if truthy_str (filters !! "packageSize")
      then enum_label size_name packageSizes (filters !! "packageSize")
      else true).

(** The rows of [await query], when the database accepts the query. Rows
    of equal [createdAt] are kept in the order of the table here; the
    database promises no order among them, and no statement below
    depends on it. *)
Definition query_results (filters : gmap string string) (st : t)
  : list DeliveryWithUser :=
  let conditions : list (Delivery → bool) := [] in
  let conditions :=
    if truthy_str (filters !! "status")
    then (conditions ++ [eq_status filters])%list else conditions in
  let conditions :=
    if truthy_str (filters !! "pickupLocation")
    then (conditions ++ [eq_pickupLocation filters])%list else conditions in
  let conditions :=
    if truthy_str (filters !! "dropLocation")
    then (conditions ++ [eq_dropLocation filters])%list else conditions in
  let conditions :=
    if truthy_str (filters !! "packageSize")
    then (conditions ++ [eq_packageSize filters])%list else conditions in
  let rows :=
    if bool_decide (0 < length conditions)%nat
    then List.filter (λ d, forallb (λ c, c d) conditions) (deliveries st)
    else deliveries st in
  let results := Array_sort newest_first rows in
  (λ delivery,
     let sender :=
       List.find (λ u, bool_decide (user_id u = senderId delivery)) (users st) in
     mkDeliveryWithUser delivery (userColumns <$> sender) None)
  <$> results.

(** [None] stands for the rejected promise: the query throws when the
    database refuses it. *)
Definition getDeliveriesWithFilters (filters : gmap string string) (st : t)
  : option (list DeliveryWithUser) :=
  if conditions_accepted filters then Some (query_results filters st)
  else None.

Definition getDeliveryById (id : Z) (st : t) : option Delivery :=
  head (List.filter (λ d, bool_decide (delivery_id d = id)) (deliveries st)).

Definition createDelivery (delivery : InsertDelivery) (now : Z) (st : t)
  : t * Delivery :=
  let id := deliveries_id_seq st in
  let createdDelivery :=
    mkDelivery id (id_senderId delivery) None
      (id_pickupLocation delivery) (id_dropLocation delivery)
      (id_packageSize delivery) (id_packageWeight delivery)
      (id_description delivery) (id_specialInstructions delivery)
      (id_preferredDeliveryDate delivery) (id_preferredDeliveryTime delivery)
      requested (id_deliveryFee delivery) now in
  (mk (users st) (deliveries st ++ [createdDelivery])%list (reviews st)
      (users_id_seq st) (id + 1) (reviews_id_seq st),
   createdDelivery).

(** [updateValues] applied to a row: [status] always, [carrierId] when the
    argument is truthy. *)
Definition set_updateValues (s : DeliveryStatus) (c : option Z) (d : Delivery)
  : Delivery :=
  mkDelivery (delivery_id d) (senderId d)
    (if truthy_num c then c else carrierId d)
    (pickupLocation d) (dropLocation d) (packageSize d) (packageWeight d)
    (description d) (specialInstructions d)
    (preferredDeliveryDate d) (preferredDeliveryTime d)
    s (deliveryFee d) (delivery_createdAt d).

Definition updateDeliveryStatus (id : Z) (s : DeliveryStatus) (c : option Z)
  (st : t) : t * option Delivery :=
  let updated :=
    (λ d, if bool_decide (delivery_id d = id) then set_updateValues s c d else d)
    <$> deliveries st in
  (mk (users st) updated (reviews st)
      (users_id_seq st) (deliveries_id_seq st) (reviews_id_seq st),
   head (List.filter (λ d, bool_decide (delivery_id d = id)) updated)).

(** [AVG(rating)] and [COUNT( * )] over the reviews received by [userId];
    the average of no row is [NULL], which [Math.round] turns into 0. *)
Definition updateUserRating (userId : Z) (st : t) : t :=
  let received :=
    List.filter (λ r, bool_decide (revieweeId r = userId)) (reviews st) in
  let totalReviews := Z.of_nat (length received) in
  let averageRating : Q :=
    if bool_decide (received = []) then 0%Q
    else (inject_Z (foldr Z.add 0%Z (rating <$> received))
          / inject_Z totalReviews)%Q in
  mk ((λ u,
        if bool_decide (user_id u = userId)
        then mkUser (user_id u) (username u) (password u) (fullName u) (role u)
               (Some (Math_round averageRating)) (Some totalReviews)
        else u) <$> users st)
     (deliveries st) (reviews st)
     (users_id_seq st) (deliveries_id_seq st) (reviews_id_seq st).

(** One transaction: the insert, then the recomputation. *)
Definition createReview (review : InsertReview) (now : Z) (st : t)
  : t * Review :=
  let id := reviews_id_seq st in
  let newReview :=
    mkReview id (ir_deliveryId review) (ir_reviewerId review)
      (ir_revieweeId review) (ir_rating review) (ir_comment review) now in
  let tx :=
    mk (users st) (deliveries st) (reviews st ++ [newReview])%list
       (users_id_seq st) (deliveries_id_seq st) (id + 1) in
  (updateUserRating (ir_revieweeId review) tx, newReview).

Definition getReviewByDeliveryAndReviewer (did rid : Z) (st : t)
  : option Review :=
  head (List.filter
          (λ r, bool_decide (deliveryId r = did) && bool_decide (reviewerId r = rid))
          (reviews st)).

End DatabaseStorage.

(** ** interface IStorage *)

(** A listing can throw ([None]); [MemStorage] never does. *)
Class IStorage (S : Type) := {
  getDeliveriesWithFilters :
    gmap string string → S → option (list DeliveryWithUser);
  getDeliveryById : Z → S → option Delivery;
  createDelivery : InsertDelivery → Z → S → S * Delivery;
  updateDeliveryStatus : Z → DeliveryStatus → option Z → S → S * option Delivery;
  createReview : InsertReview → Z → S → S * Review;
  getReviewByDeliveryAndReviewer : Z → Z → S → option Review;
}.

Global Instance MemStorage_IStorage : IStorage MemStorage.t := {
  getDeliveriesWithFilters filters st :=
    Some (MemStorage.getDeliveriesWithFilters filters st);
  getDeliveryById := MemStorage.getDeliveryById;
  createDelivery := MemStorage.createDelivery;
  updateDeliveryStatus := MemStorage.updateDeliveryStatus;
  createReview := MemStorage.createReview;
  getReviewByDeliveryAndReviewer := MemStorage.getReviewByDeliveryAndReviewer;
}.

Global Instance DatabaseStorage_IStorage : IStorage DatabaseStorage.t := {
  getDeliveriesWithFilters := DatabaseStorage.getDeliveriesWithFilters;
  getDeliveryById := DatabaseStorage.getDeliveryById;
  createDelivery := DatabaseStorage.createDelivery;
  updateDeliveryStatus := DatabaseStorage.updateDeliveryStatus;
  createReview := DatabaseStorage.createReview;
  getReviewByDeliveryAndReviewer := DatabaseStorage.getReviewByDeliveryAndReviewer;
}.

(** ** server/routes.ts *)

(** What a handler sends: [res.status(code).json(body)] with an entity, or
    [res.status(code).json({ message })]. *)
Inductive Response (A : Type) :=
  | Json (code : Z) (body : A)
  | Message (code : Z) (message : string).
Arguments Json {A} code body.
Arguments Message {A} code message.

(** The error kinds of the specification, and the kind of each failure
    response of the handlers below (by status code; the several uses of
    400 by their message). *)
Inductive ErrorKind :=
  | ValidationError | NotFound | Forbidden
  | InvalidTransition | InvalidState | Conflict.

Definition invalid_transition_messages : list string :=
  ["Can only accept deliveries with 'requested' status";
   "Can only mark as picked when delivery is accepted";
   "Can only mark as delivered when package is picked"].

Definition error_kind {A} (r : Response A) : option ErrorKind :=
  match r with
  | Json _ _ => None
  | Message code message =>
      if bool_decide (code = 404) then Some NotFound
      else if bool_decide (code = 403) then Some Forbidden
      else if bool_decide (code = 400) then
        if bool_decide (message ∈ invalid_transition_messages)
        then Some InvalidTransition
        else if bool_decide (message = "Can only review completed deliveries")
        then Some InvalidState
        else if bool_decide (message = "You have already reviewed this delivery")
        then Some Conflict
        else Some ValidationError
      else None
  end.

(** A 2xx answer. *)
Definition succeeds {A} (r : Response A) : Prop :=
  match r with
  | Json _ _ => True
  | Message _ _ => False
  end.

Global Instance succeeds_dec {A} (r : Response A) : Decision (succeeds r).
Proof. destruct r; simpl; apply _. Defined.

(** [if (q) filters.k = q] *)
Definition set_filter (k : string) (query filters : gmap string string)
  : gmap string string :=
  match query !! k with
  | Some v => if truthy_str (Some v) then <[k := v]> filters else filters
  | None => filters
  end.

(** The status requested by [req.body]: a string that is one of
    [deliveryStatusEnum.enumValues]. *)
Definition body_status (body : jsobject) : option DeliveryStatus :=
  match body !! "status" with
  | Some (JStr s) => parse_enum status_name enumValues s
  | _ => None
  end.

(** The permission and transition rules of [PATCH
    /api/deliveries/:id/status], from the delivery that was read to the
    first failure, if any. *)
Definition status_rules (uid : Z) (s : DeliveryStatus) (delivery : Delivery)
  : option (Response (option Delivery)) :=
  let isCarrier := bool_decide (Some uid = carrierId delivery) in
  let isSender := bool_decide (uid = senderId delivery) in
  if negb isCarrier && negb isSender
  then Some (Message 403 "Forbidden: Not associated with this delivery")
  else
    match s with
    | accepted =>
        if negb (bool_decide (status delivery = requested))
        then Some (Message 400 "Can only accept deliveries with 'requested' status")
        else if negb isCarrier
        then Some (Message 403 "Only carriers can accept deliveries")
        else None
    | picked =>
        if negb (bool_decide (status delivery = accepted))
        then Some (Message 400 "Can only mark as picked when delivery is accepted")
        else if negb isCarrier
        then Some (Message 403 "Only carriers can mark as picked")
        else None
    | delivered =>
        if negb (bool_decide (status delivery = picked))
        then Some (Message 400 "Can only mark as delivered when package is picked")
        else if negb isCarrier
        then Some (Message 403 "Only carriers can mark as delivered")
        else None
    | requested => None
    end.

Section Routes.

Context {S : Type} `{IStorage S}.

(** [GET /api/deliveries]; a listing that throws is caught and answered
    500. *)
Definition get_deliveries (query : gmap string string) (st : S)
  : Response (list DeliveryWithUser) :=
  let filters : gmap string string := ∅ in
  let filters := set_filter "status" query filters in
  let filters := set_filter "pickupLocation" query filters in
  let filters := set_filter "dropLocation" query filters in
  let filters := set_filter "packageSize" query filters in
  match getDeliveriesWithFilters filters st with
  | Some deliveries => Json 200 deliveries
  | None => Message 500 "Failed to fetch deliveries"
  end.

(** [GET /api/deliveries/:id] *)
Definition get_delivery (id : Z) (st : S) : Response Delivery :=
  match getDeliveryById id st with
  | None => Message 404 "Delivery not found"
  | Some delivery => Json 200 delivery
  end.

(** [POST /api/deliveries] by the authenticated user [uid] at time [now]. *)
Definition post_deliveries (uid : Z) (body : jsobject) (now : Z) (st : S)
  : S * Response Delivery :=
  match createDeliverySchema (<["senderId" := JNum uid]> body) with
  | None => (st, Message 400 "Validation error")
  | Some deliveryData =>
      let '(st, delivery) := createDelivery deliveryData now st in
      (st, Json 201 delivery)
  end.

(** [PATCH /api/deliveries/:id/status] by the authenticated user [uid]. *)
Definition patch_delivery_status (uid : Z) (id : Z) (body : jsobject) (st : S)
  : S * Response (option Delivery) :=
  match body_status body with
  | None => (st, Message 400 "Invalid status")
  | Some s =>
      match getDeliveryById id st with
      | None => (st, Message 404 "Delivery not found")
      | Some delivery =>
          match status_rules uid s delivery with
          | Some failure => (st, failure)
          | None =>
              let '(st, updatedDelivery) :=
                updateDeliveryStatus id s
                  (if bool_decide (s = accepted) then Some uid else None) st in
              (st, Json 200 updatedDelivery)
          end
      end
  end.

(** [POST /api/reviews] after the parse: [reviewData] is the parsed body,
    whose [reviewerId] is [uid]. *)
Definition submitReview (uid : Z) (reviewData : InsertReview) (now : Z) (st : S)
  : S * Response Review :=
  match getDeliveryById (ir_deliveryId reviewData) st with
  | None => (st, Message 404 "Delivery not found")
  | Some delivery =>
      if negb (bool_decide (status delivery = delivered))
      then (st, Message 400 "Can only review completed deliveries")
      else
        let isCarrier := bool_decide (Some uid = carrierId delivery) in
        let isSender := bool_decide (uid = senderId delivery) in
        if negb isCarrier && negb isSender
        then (st, Message 403 "Only participants in the delivery can leave reviews")
        else if negb (bool_decide
                        (Some (ir_revieweeId reviewData)
                         = if isSender then carrierId delivery
                           else Some (senderId delivery)))
        then (st, Message 400 "Invalid reviewee")
        else
          match getReviewByDeliveryAndReviewer (ir_deliveryId reviewData) uid st with
          | Some existingReview =>
              (st, Message 400 "You have already reviewed this delivery")
          | None =>
              let '(st, review) := createReview reviewData now st in
              (st, Json 201 review)
          end
  end.

(** [POST /api/reviews] by the authenticated user [uid] at time [now]. *)
Definition post_reviews (uid : Z) (body : jsobject) (now : Z) (st : S)
  : S * Response Review :=
  match insertReviewSchema (<["reviewerId" := JNum uid]> body) with
  | None => (st, Message 400 "Validation error")
  | Some reviewData => submitReview uid reviewData now st
  end.

End Routes.

(** Request bodies as the client pages build them. *)
Definition status_body (s : DeliveryStatus) : jsobject :=
  {[ "status" := JStr (status_name s) ]}.

Definition review_body (did eid r : Z) (c : option string) : jsobject :=
  let o : jsobject :=
    <["deliveryId" := JNum did]>
    (<["revieweeId" := JNum eid]>
    (<["rating" := JNum r]> ∅)) in
  match c with
  | Some c => <["comment" := JStr c]> o
  | None => o
  end.

(** ** Sequences of requests *)

(** The mutating requests, served one after the other. *)
Inductive Request :=
  | PostDelivery (uid : Z) (body : jsobject) (now : Z)
  | PatchStatus (uid id : Z) (body : jsobject)
  | PostReview (uid : Z) (body : jsobject) (now : Z).

Definition handle {S} `{IStorage S} (r : Request) (st : S) : S :=
  match r with
  | PostDelivery uid body now => (post_deliveries uid body now st).1
  | PatchStatus uid id body => (patch_delivery_status uid id body st).1
  | PostReview uid body now => (post_reviews uid body now st).1
  end.

Definition run {S} `{IStorage S} (rs : list Request) (st : S) : S :=
  foldl (λ st r, handle r st) st rs.

(** ** The handler of [PATCH /api/deliveries/:id/status] between its awaits

    The handler awaits the storage twice: [getDeliveryById], then
    [updateDeliveryStatus]. Each storage call is one step on the store;
    the handler's own code runs between them without interruption, and
    other requests can be served between the two steps. *)
Inductive PatchThread :=
  | Started (uid id : Z) (body : jsobject)
  | HasRead (uid id : Z) (s : DeliveryStatus) (delivery : option Delivery)
  | Finished (response : Response (option Delivery)).

Definition step {S} `{IStorage S} (t : PatchThread) (st : S)
  : S * PatchThread :=
  match t with
  | Started uid id body =>
      match body_status body with
      | None => (st, Finished (Message 400 "Invalid status"))
      | Some s => (st, HasRead uid id s (getDeliveryById id st))
      end
  | HasRead uid id s None =>
      (st, Finished (Message 404 "Delivery not found"))
  | HasRead uid id s (Some delivery) =>
      match status_rules uid s delivery with
      | Some failure => (st, Finished failure)
      | None =>
          let '(st, updatedDelivery) :=
            updateDeliveryStatus id s
              (if bool_decide (s = accepted) then Some uid else None) st in
          (st, Finished (Json 200 updatedDelivery))
      end
  | Finished r => (st, Finished r)
  end.


Definition response_of (t : PatchThread) : option (Response (option Delivery)) :=
  match t with
  | Finished r => Some r
  | _ => None
  end.

(** ** The handler of [POST /api/reviews] between its awaits

    The handler awaits the storage three times: [getDeliveryById],
    [getReviewByDeliveryAndReviewer], then [createReview]. Each storage
    call is one step on the store; the handler's own checks run between
    them without interruption, and with the database, whose calls wait
    for the server, other requests can be served between the steps. *)
Inductive ReviewThread :=
  | ReviewStarted (uid : Z) (body : jsobject) (now : Z)
  | HasDelivery (uid : Z) (reviewData : InsertReview) (now : Z)
      (delivery : option Delivery)
  | HasLookedUp (uid : Z) (reviewData : InsertReview) (now : Z)
      (existingReview : option Review)
  | ReviewFinished (response : Response Review).

Definition review_step {S} `{IStorage S} (t : ReviewThread) (st : S)
  : S * ReviewThread :=
  match t with
  | ReviewStarted uid body now =>
      match insertReviewSchema (<["reviewerId" := JNum uid]> body) with
      | None => (st, ReviewFinished (Message 400 "Validation error"))
      | Some reviewData =>
          (st, HasDelivery uid reviewData now
                 (getDeliveryById (ir_deliveryId reviewData) st))
      end
  | HasDelivery uid reviewData now None =>
      (st, ReviewFinished (Message 404 "Delivery not found"))
  | HasDelivery uid reviewData now (Some delivery) =>
      if negb (bool_decide (status delivery = delivered))
      then (st, ReviewFinished
                  (Message 400 "Can only review completed deliveries"))
      else
        let isCarrier := bool_decide (Some uid = carrierId delivery) in
        let isSender := bool_decide (uid = senderId delivery) in
        if negb isCarrier && negb isSender
        then (st, ReviewFinished
                    (Message 403
                       "Only participants in the delivery can leave reviews"))
        else if negb (bool_decide
                        (Some (ir_revieweeId reviewData)
                         = if isSender then carrierId delivery
                           else Some (senderId delivery)))
        then (st, ReviewFinished (Message 400 "Invalid reviewee"))
        else
          (st, HasLookedUp uid reviewData now
                 (getReviewByDeliveryAndReviewer
                    (ir_deliveryId reviewData) uid st))
  | HasLookedUp uid reviewData now (Some existingReview) =>
      (st, ReviewFinished
             (Message 400 "You have already reviewed this delivery"))
  | HasLookedUp uid reviewData now None =>
      let '(st, review) := createReview reviewData now st in
      (st, ReviewFinished (Json 201 review))
  | ReviewFinished r => (st, ReviewFinished r)
  end.


Definition review_response_of (t : ReviewThread) : option (Response Review) :=
  match t with
  | ReviewFinished r => Some r
  | _ => None
  end.

(** ** Notions of the specification *)

(** [carrierId] is null iff the status is [requested]. *)
Definition carrier_invariant (d : Delivery) : Prop :=
  carrierId d = None ↔ status d = requested.

Global Instance carrier_invariant_dec d : Decision (carrier_invariant d).
Proof. unfold carrier_invariant. apply _. Defined.

(** The position of a status in requested → accepted → picked →
    delivered. *)
Definition stage (s : DeliveryStatus) : Z :=
  match s with
  | requested => 0
  | accepted => 1
  | picked => 2
  | delivered => 3
  end.

(** The status a transition to [s] must start from. *)
Definition predecessor (s : DeliveryStatus) : option DeliveryStatus :=
  match s with
  | requested => None
  | accepted => Some requested
  | picked => Some accepted
  | delivered => Some picked
  end.

(** The reviewee is the other party of the delivery: the carrier for the
    sender, the sender for the carrier. *)
Definition other_party (d : Delivery) (reviewer reviewee : Z) : Prop :=
  (reviewer = senderId d → carrierId d = Some reviewee)
  ∧ (carrierId d = Some reviewer → reviewee = senderId d).

(** The (delivery, reviewer) pair of a review, and the uniqueness of the
    pairs of a list of reviews. *)
Definition review_pair (r : Review) : Z * Z := (deliveryId r, reviewerId r).

Definition one_review_per_pair (l : list Review) : Prop :=
  NoDup (review_pair <$> l).

(** Rounding to the nearest integer, a tie going away from zero. *)
Definition round_half_away_from_zero (x : Q) : Z :=
  if Qle_bool 0 x then Qfloor (x + (1 # 2))%Q else Qceiling (x - (1 # 2))%Q.

Definition mean (l : list Z) : Q :=
  (inject_Z (foldr Z.add 0%Z l) / inject_Z (Z.of_nat (length l)))%Q.

(** The public profile fields, in the names of the code. *)
Definition public_fields : gset string :=
  {[ "id"; "username"; "fullName"; "rating"; "totalReviews"; "role" ]}.

(** The field of a delivery that a filter key is compared with. *)
Definition filtered_field (k : string) (d : Delivery) : option string :=
  if bool_decide (k = "status") then Some (status_name (status d))
  else if bool_decide (k = "pickupLocation") then Some (pickupLocation d)
  else if bool_decide (k = "dropLocation") then Some (dropLocation d)
  else if bool_decide (k = "packageSize") then Some (size_name (packageSize d))
  else None.

Definition filter_keys : list string :=
  ["status"; "pickupLocation"; "dropLocation"; "packageSize"].

(** [d] satisfies every given filter, as an exact match. *)
Definition satisfies_given (filters : gmap string string) (d : Delivery)
  : Prop :=
  ∀ k v, k ∈ filter_keys → filters !! k = Some v → filtered_field k d = Some v.

(** [d] satisfies every given filter whose value is not the empty
    string. *)
Definition satisfies_nonempty (filters : gmap string string) (d : Delivery)
  : Prop :=
  ∀ k v, k ∈ filter_keys → filters !! k = Some v → v ≠ "" →
         filtered_field k d = Some v.

(** Newest first. *)
Definition not_older (a b : Delivery) : Prop :=
  delivery_createdAt b ≤ delivery_createdAt a.


(** The selection of a listing in one test: every truthy filter equals
    the delivery's field. *)
Definition selects (filters : gmap string string) (d : Delivery) : bool :=
  (if truthy_str (filters !! "status") then eq_status filters d else true)
  && (if truthy_str (filters !! "pickupLocation")
      then eq_pickupLocation filters d else true)
  && (if truthy_str (filters !! "dropLocation")
      then eq_dropLocation filters d else true)
  && (if truthy_str (filters !! "packageSize")
      then eq_packageSize filters d else true).

(** What [POST /api/reviews] relies on, of a storage: the reviews it
    holds, that the lookup finds a review of the pair if there is one, that
    [createReview] stores the review it returns and nothing else of the
    kind, and that deliveries and reviews do not touch each other. *)
Class ReviewStorage (S : Type) `{IStorage S} := {
  reviews_of : S → list Review;
  find_review_None did rid (st : S) :
    getReviewByDeliveryAndReviewer did rid st = None
    ↔ ∀ x, x ∈ reviews_of st → review_pair x ≠ (did, rid);
  createReview_returns rd now (st : S) :
    ∃ id, (createReview rd now st).2
          = mkReview id (ir_deliveryId rd) (ir_reviewerId rd)
              (ir_revieweeId rd) (ir_rating rd) (ir_comment rd) now;
  createReview_stored rd now (st : S) :
    (createReview rd now st).2 ∈ reviews_of (createReview rd now st).1;
  createReview_unique rd now (st : S) :
    one_review_per_pair (reviews_of st) →
    (∀ x, x ∈ reviews_of st
          → review_pair x ≠ (ir_deliveryId rd, ir_reviewerId rd)) →
    one_review_per_pair (reviews_of (createReview rd now st).1);
  createReview_deliveries rd now (st : S) id :
    getDeliveryById id (createReview rd now st).1 = getDeliveryById id st;
  createDelivery_reviews d now (st : S) :
    reviews_of (createDelivery d now st).1 = reviews_of st;
  updateDeliveryStatus_reviews id s c (st : S) :
    reviews_of (updateDeliveryStatus id s c st).1 = reviews_of st;
}.

(** The reviews held by the in-memory store. *)
Definition Mem_reviews (st : MemStorage.t) : list Review :=
  JsMap.values (MemStorage.reviewsData st).

(** The reviews received by a user, in the order of the store. *)
Definition Mem_received (uid : Z) (st : MemStorage.t) : list Review :=
  List.filter (λ r, bool_decide (revieweeId r = uid)) (Mem_reviews st).

(** Every stored review has a key below the counter: the next key is
    new. *)
Definition Mem_fresh_reviewId (st : MemStorage.t) : Prop :=
  Forall (λ k, k < MemStorage.next_reviewId st) (MemStorage.reviewsData st).*1.

(** Every user with a review has the aggregate of the reviews received. *)
Definition rating_consistent (st : MemStorage.t) : Prop :=
  ∀ uid u, JsMap.get uid (MemStorage.usersData st) = Some u →
    let ratings := rating <$> Mem_received uid st in
    ratings ≠ [] →
    user_rating u = Some (Math_round (mean ratings))
    ∧ totalReviews u = Some (Z.of_nat (length ratings)).

(** What the review subsystem reads and writes of the store. *)
Definition review_state (st : MemStorage.t) :=
  (MemStorage.usersData st, MemStorage.reviewsData st,
   MemStorage.next_reviewId st).



(** A database that holds the rows of an in-memory store, its sequences
    at the store's counters. *)
Definition db_of (m : MemStorage.t) : DatabaseStorage.t :=
  DatabaseStorage.mk (JsMap.values (MemStorage.usersData m))
    (JsMap.values (MemStorage.deliveriesData m))
    (JsMap.values (MemStorage.reviewsData m))
    (MemStorage.next_userId m) (MemStorage.next_deliveryId m)
    (MemStorage.next_reviewId m).

(** ** server/storage.ts: the remaining methods of MemStorage *)

(** A stored user as the JavaScript object it is. *)
Definition user_object (u : User) : jsobject :=
  <["id" := JNum (user_id u)]>
  (<["username" := JStr (username u)]>
  (<["password" := JStr (password u)]>
  (<["fullName" := JStr (fullName u)]>
  (<["role" := JStr (role_name (role u))]>
  (<["rating" := js_opt_num (user_rating u)]>
  (<["totalReviews" := js_opt_num (totalReviews u)]> ∅)))))).

(** [Review & { reviewer: Partial<User> }] *)
Record ReviewWithReviewer := mkReviewWithReviewer {
  rwr_review : Review;
  rwr_reviewer : option jsobject;
}.

(** The comparator of the review listings: [dateB - dateA]. *)
Definition newest_review_first (a b : Review) : Z :=
  review_createdAt b - review_createdAt a.

(** [reviewerSafe] and the columns selected for a reviewer. *)
Definition reviewerSafe (u : User) : jsobject :=
  <["id" := JNum (user_id u)]>
  (<["username" := JStr (username u)]>
  (<["fullName" := JStr (fullName u)]> ∅)).

Module MemStorageRest.

Definition getUser (id : Z) (st : MemStorage.t) : option User :=
  JsMap.get id (MemStorage.usersData st).

Definition getUserByUsername (name : string) (st : MemStorage.t)
  : option User :=
  List.find (λ user, bool_decide (username user = name))
    (JsMap.values (MemStorage.usersData st)).

(** [const { password, ...profile } = user] *)
Definition getUserProfile (userId : Z) (st : MemStorage.t) : option jsobject :=
  match JsMap.get userId (MemStorage.usersData st) with
  | None => None
  | Some user => Some (delete "password" (user_object user))
  end.

Definition getSenderDeliveries (userId : Z) (st : MemStorage.t)
  : list DeliveryWithUser :=
  let deliveries :=
    Array_sort newest_first
      (List.filter (λ d, bool_decide (senderId d = userId))
         (JsMap.values (MemStorage.deliveriesData st))) in
  (λ delivery,
     let sender := JsMap.get (senderId delivery) (MemStorage.usersData st) in
     let carrier :=
       if truthy_num (carrierId delivery)
       then c ← carrierId delivery; JsMap.get c (MemStorage.usersData st)
       else None in
     mkDeliveryWithUser delivery (MemStorage.userSafe <$> sender)
       (MemStorage.userSafe <$> carrier))
  <$> deliveries.

Definition getCarrierDeliveries (userId : Z) (st : MemStorage.t)
  : list DeliveryWithUser :=
  let deliveries :=
    Array_sort newest_first
      (List.filter (λ d, bool_decide (carrierId d = Some userId))
         (JsMap.values (MemStorage.deliveriesData st))) in
  (λ delivery,
     let sender := JsMap.get (senderId delivery) (MemStorage.usersData st) in
     let carrier := JsMap.get userId (MemStorage.usersData st) in
     mkDeliveryWithUser delivery (MemStorage.userSafe <$> sender)
       (MemStorage.userSafe <$> carrier))
  <$> deliveries.

Definition getUserReviews (userId : Z) (st : MemStorage.t)
  : list ReviewWithReviewer :=
  let userReviews :=
    Array_sort newest_review_first
      (List.filter (λ r, bool_decide (revieweeId r = userId))
         (JsMap.values (MemStorage.reviewsData st))) in
  (λ review,
     let reviewer := JsMap.get (reviewerId review) (MemStorage.usersData st) in
     mkReviewWithReviewer review (reviewerSafe <$> reviewer))
  <$> userReviews.

End MemStorageRest.

(** ** server/storage.ts: the remaining methods of DatabaseStorage

    [users.username] is [unique]: an insert of a taken name is refused
    ([None]). A left join on [users.id] finds at most the row of that
    id. *)

Module DatabaseStorageRest.

Definition getUser (id : Z) (st : DatabaseStorage.t) : option User :=
  head (List.filter (λ u, bool_decide (user_id u = id))
          (DatabaseStorage.users st)).

Definition getUserByUsername (name : string) (st : DatabaseStorage.t)
  : option User :=
  head (List.filter (λ u, bool_decide (username u = name))
          (DatabaseStorage.users st)).

(** [rating] has no default and [total_reviews] defaults to 0. *)
Definition createUser (insertUser : InsertUser) (st : DatabaseStorage.t)
  : option (DatabaseStorage.t * User) :=
  if bool_decide (iu_username insertUser ∈ username <$> DatabaseStorage.users st)
  then None
  else
    let user :=
      mkUser (DatabaseStorage.users_id_seq st) (iu_username insertUser)
        (iu_password insertUser) (iu_fullName insertUser) (iu_role insertUser)
        None (Some 0) in
    Some (DatabaseStorage.mk (DatabaseStorage.users st ++ [user])%list
            (DatabaseStorage.deliveries st) (DatabaseStorage.reviews st)
            (DatabaseStorage.users_id_seq st + 1)
            (DatabaseStorage.deliveries_id_seq st)
            (DatabaseStorage.reviews_id_seq st),
          user).

(** The columns selected by [getUserProfile]. *)
Definition profileColumns (u : User) : jsobject :=
  <["id" := JNum (user_id u)]>
  (<["username" := JStr (username u)]>
  (<["fullName" := JStr (fullName u)]>
  (<["role" := JStr (role_name (role u))]>
  (<["rating" := js_opt_num (user_rating u)]>
  (<["totalReviews" := js_opt_num (totalReviews u)]> ∅))))).

Definition getUserProfile (userId : Z) (st : DatabaseStorage.t)
  : option jsobject :=
  profileColumns
  <$> head (List.filter (λ u, bool_decide (user_id u = userId))
              (DatabaseStorage.users st)).

(** The row of [users] joined to a nullable reference. *)
Definition joined (ref : option Z) (st : DatabaseStorage.t) : option User :=
  r ← ref;
  List.find (λ u, bool_decide (user_id u = r)) (DatabaseStorage.users st).

(** [sender: { id: userId }], [carrier: carrier?.id ? carrier : undefined] *)
Definition getSenderDeliveries (userId : Z) (st : DatabaseStorage.t)
  : list DeliveryWithUser :=
  let results :=
    Array_sort newest_first
      (List.filter (λ d, bool_decide (senderId d = userId))
         (DatabaseStorage.deliveries st)) in
  (λ delivery,
     let carrier := joined (carrierId delivery) st in
     mkDeliveryWithUser delivery
       (Some {[ "id" := JNum userId ]})
       (if truthy_num (user_id <$> carrier)
        then DatabaseStorage.userColumns <$> carrier else None))
  <$> results.

(** [sender], [carrier: { id: userId }] *)
Definition getCarrierDeliveries (userId : Z) (st : DatabaseStorage.t)
  : list DeliveryWithUser :=
  let results :=
    Array_sort newest_first
      (List.filter (λ d, bool_decide (carrierId d = Some userId))
         (DatabaseStorage.deliveries st)) in
  (λ delivery,
     let sender := joined (Some (senderId delivery)) st in
     mkDeliveryWithUser delivery
       (DatabaseStorage.userColumns <$> sender)
       (Some {[ "id" := JNum userId ]}))
  <$> results.

Definition getUserReviews (userId : Z) (st : DatabaseStorage.t)
  : list ReviewWithReviewer :=
  let reviewsWithReviewers :=
    Array_sort newest_review_first
      (List.filter (λ r, bool_decide (revieweeId r = userId))
         (DatabaseStorage.reviews st)) in
  (λ review,
     mkReviewWithReviewer review
       (reviewerSafe <$> joined (Some (reviewerId review)) st))
  <$> reviewsWithReviewers.

End DatabaseStorageRest.

(** ** interface IStorage: the methods of the read routes *)

Class IStorageRead (S : Type) := {
  getUserProfile : Z → S → option jsobject;
  getSenderDeliveries : Z → S → list DeliveryWithUser;
  getCarrierDeliveries : Z → S → list DeliveryWithUser;
  getUserReviews : Z → S → list ReviewWithReviewer;
}.

Global Instance MemStorage_IStorageRead : IStorageRead MemStorage.t := {
  getUserProfile := MemStorageRest.getUserProfile;
  getSenderDeliveries := MemStorageRest.getSenderDeliveries;
  getCarrierDeliveries := MemStorageRest.getCarrierDeliveries;
  getUserReviews := MemStorageRest.getUserReviews;
}.

Global Instance DatabaseStorage_IStorageRead
  : IStorageRead DatabaseStorage.t := {
  getUserProfile := DatabaseStorageRest.getUserProfile;
  getSenderDeliveries := DatabaseStorageRest.getSenderDeliveries;
  getCarrierDeliveries := DatabaseStorageRest.getCarrierDeliveries;
  getUserReviews := DatabaseStorageRest.getUserReviews;
}.

(** ** server/routes.ts: the read routes of an authenticated user and of
    the public profile pages *)

Section ReadRoutes.

Context {S : Type} `{IStorageRead S}.

(** [GET /api/user/deliveries/sender] *)
Definition get_user_deliveries_sender (uid : Z) (st : S)
  : Response (list DeliveryWithUser) :=
  Json 200 (getSenderDeliveries uid st).

(** [GET /api/user/deliveries/carrier] *)
Definition get_user_deliveries_carrier (uid : Z) (st : S)
  : Response (list DeliveryWithUser) :=
  Json 200 (getCarrierDeliveries uid st).

(** [GET /api/users/:id/reviews] *)
Definition get_user_reviews (userId : Z) (st : S)
  : Response (list ReviewWithReviewer) :=
  Json 200 (getUserReviews userId st).

(** [GET /api/users/:id/profile] *)
Definition get_user_profile (userId : Z) (st : S) : Response jsobject :=
  match getUserProfile userId st with
  | None => Message 404 "User not found"
  | Some user => Json 200 user
  end.

End ReadRoutes.

(** ** The delivery details page (client)

    The page of a logged-in user [uid] on the delivery it has fetched. *)

(** [getNextStatus] *)
Definition getNextStatus (s : DeliveryStatus) : option DeliveryStatus :=
  match s with
  | accepted => Some picked
  | picked => Some delivered
  | _ => None
  end.

(** The request behind the carrier's button: shown when [isCarrier &&
    nextStatus], it sends [{ status: nextStatus }]. *)
Definition page_status_request (uid id : Z) (delivery : Delivery)
  : option Request :=
  let isCarrier := bool_decide (Some uid = carrierId delivery) in
  match getNextStatus (status delivery) with
  | Some nextStatus =>
      if isCarrier then Some (PatchStatus uid id (status_body nextStatus))
      else None
  | None => None
  end.

(** [reviewSchema]: a rating from 1 to 5 and a comment of 3 characters at
    least. *)
Definition reviewSchema (rating : Z) (comment : string) : bool :=
  bool_decide (1 ≤ rating) && bool_decide (rating ≤ 5)
  && bool_decide (3 ≤ String.length comment)%nat.

(** The body of the review form: the form is shown when [isInvolved &&
    delivery.status === "delivered"], it submits values that pass
    [reviewSchema], and the mutation sends [{ ...data, deliveryId,
    revieweeId }] unless [revieweeId] is falsy. *)
Definition page_review_body (uid id : Z) (delivery : Delivery)
    (rating : Z) (comment : string) : option jsobject :=
  let isSender := bool_decide (uid = senderId delivery) in
  let isCarrier := bool_decide (Some uid = carrierId delivery) in
  let isInvolved := isSender || isCarrier in
  let revieweeId :=
    if isSender then carrierId delivery else Some (senderId delivery) in
  if isInvolved && bool_decide (status delivery = delivered)
     && reviewSchema rating comment
  then
    match revieweeId with
    | Some e =>
        if truthy_num revieweeId
        then Some (<["rating" := JNum rating]>
                   (<["comment" := JStr comment]>
                   (<["deliveryId" := JNum id]>
                   (<["revieweeId" := JNum e]> ∅))))
        else None
    | None => None
    end
  else None.

(** ** Answers of a sequence of requests *)

Inductive Reply :=
  | DeliveryReply (r : Response Delivery)
  | StatusReply (r : Response (option Delivery))
  | ReviewReply (r : Response Review).

Definition reply {S} `{IStorage S} (r : Request) (st : S) : Reply :=
  match r with
  | PostDelivery uid body now =>
      DeliveryReply (post_deliveries uid body now st).2
  | PatchStatus uid id body =>
      StatusReply (patch_delivery_status uid id body st).2
  | PostReview uid body now => ReviewReply (post_reviews uid body now st).2
  end.

(** ** Well-formed stores *)

(** The keys of a map of the in-memory store are the ids of its values,
    distinct, and below the counter. *)
Definition keyed {V} (id_of : V → Z) (next : Z) (m : JsMap.t V) : Prop :=
  Forall (λ p, id_of p.2 = p.1 ∧ p.1 < next) m ∧ NoDup m.*1.

(** What [createDeliverySchema] asks of the fields it bounds. *)
Definition valid_delivery (d : Delivery) : Prop :=
  1 ≤ packageWeight d ∧ 1 ≤ deliveryFee d
  ∧ pickupLocation d ≠ "" ∧ dropLocation d ≠ "".

(** [d] with the status [s] and nothing else changed. *)
Definition set_status (s : DeliveryStatus) (d : Delivery) : Delivery :=
  mkDelivery (delivery_id d) (senderId d) (carrierId d)
    (pickupLocation d) (dropLocation d) (packageSize d) (packageWeight d)
    (description d) (specialInstructions d)
    (preferredDeliveryDate d) (preferredDeliveryTime d)
    s (deliveryFee d) (delivery_createdAt d).

(** What the status route relies on, of a storage: an update rewrites the
    delivery of that id, with the new status and, when truthy, the new
    carrier, returns it, and leaves every other delivery as it was. *)
Class DeliveryStorage (S : Type) `{IStorage S} := {
  update_read id id' s c (st : S) :
    getDeliveryById id' (updateDeliveryStatus id s c st).1
    = if bool_decide (id' = id)
      then (λ d, MemStorage.with_status d s c) <$> getDeliveryById id st
      else getDeliveryById id' st;
  update_returns id s c (st : S) :
    (updateDeliveryStatus id s c st).2
    = (λ d, MemStorage.with_status d s c) <$> getDeliveryById id st;
}.

(** ** Notions of the further properties *)

(** An answer that is an error message. *)
Definition refused (r : Reply) : Prop :=
  match r with
  | DeliveryReply (Message _ _) | StatusReply (Message _ _)
  | ReviewReply (Message _ _) => True
  | _ => False
  end.

(** The deliveries of the in-memory store sit under their ids, below the
    counter. *)
Definition Mem_deliveries_keyed (st : MemStorage.t) : Prop :=
  keyed delivery_id (MemStorage.next_deliveryId st)
    (MemStorage.deliveriesData st).

(** What the delivery of one id was and what it is later: a delivery that
    was stored is still stored and differs in its status at most; a
    delivery that was not stored has no carrier. *)
Definition evolves (before after : option Delivery) : Prop :=
  match before, after with
  | Some d0, Some d => d = set_status (status d) d0
  | Some _, None => False
  | None, Some d => carrierId d = None
  | None, None => True
  end.

(** Every user of the in-memory store counts the reviews received. *)
Definition counts_consistent (st : MemStorage.t) : Prop :=
  ∀ uid u, JsMap.get uid (MemStorage.usersData st) = Some u →
    totalReviews u = Some (Z.of_nat (length (Mem_received uid st))).

(** Newest first, for reviews. *)
Definition not_older_review (a b : Review) : Prop :=
  review_createdAt b ≤ review_createdAt a.

(** The fields of the reviewer embedded in a listed review. *)
Definition reviewer_fields : gset string := {[ "id"; "username"; "fullName" ]}.

(** ** The form that creates a delivery (client)

    [CreateDeliveryForm]: the values of the form are the nine fields that
    it registers and gives defaults for. [form.handleSubmit(onSubmit)]
    calls [onSubmit] with the parsed values when the resolver of the
    form, [zodResolver(createDeliverySchema)], accepts the values, and
    does not call it otherwise; [onSubmit] posts them to
    [/api/deliveries]. *)
Definition form_fields : gset string :=
  {[ "pickupLocation"; "dropLocation"; "packageSize"; "packageWeight";
     "preferredDeliveryDate"; "preferredDeliveryTime"; "deliveryFee";
     "description"; "specialInstructions" ]}.

(** The parsed values as the object they are. *)
Definition insertDelivery_object (data : InsertDelivery) : jsobject :=
  let o : jsobject :=
    <["senderId" := JNum (id_senderId data)]>
    (<["pickupLocation" := JStr (id_pickupLocation data)]>
    (<["dropLocation" := JStr (id_dropLocation data)]>
    (<["packageSize" := JStr (size_name (id_packageSize data))]>
    (<["packageWeight" := JNum (id_packageWeight data)]>
    (<["preferredDeliveryDate" := JStr (id_preferredDeliveryDate data)]>
    (<["preferredDeliveryTime" := JStr (id_preferredDeliveryTime data)]>
    (<["deliveryFee" := JNum (id_deliveryFee data)]> ∅))))))) in
  let o :=
    match id_description data with
    | Some s => <["description" := JStr s]> o
    | None => o
    end in
  match id_specialInstructions data with
  | Some s => <["specialInstructions" := JStr s]> o
  | None => o
  end.

(** The request that a submit of the form sends, if any, for the
    logged-in user [uid]. *)
Definition CreateDeliveryForm_submit (uid : Z) (values : jsobject) (now : Z)
  : option Request :=
  match createDeliverySchema values with
  | Some data => Some (PostDelivery uid (insertDelivery_object data) now)
  | None => None
  end.

(** * Properties *)

(** ** Facts on [Map] *)

Lemma JsMap_get_set_eq {V} (k : Z) (v : V) (m : JsMap.t V) :
  JsMap.get k (JsMap.set k v m) = Some v.
Proof.
  unfold JsMap.get. induction m as [|[k' v'] m IH]; simpl.
  - by rewrite bool_decide_eq_true_2.
  - case_bool_decide; simpl.
    + by rewrite bool_decide_eq_true_2.
    + by rewrite bool_decide_eq_false_2.
Qed.

Lemma JsMap_get_set_ne {V} (k k' : Z) (v : V) (m : JsMap.t V) :
  k ≠ k' → JsMap.get k' (JsMap.set k v m) = JsMap.get k' m.
Proof.
  intros Hne. unfold JsMap.get. induction m as [|[k'' v''] m IH]; simpl.
  - by rewrite bool_decide_eq_false_2.
  - case_bool_decide as Hk; simpl.
    + subst k''. by rewrite !bool_decide_eq_false_2.
    + by case_bool_decide.
Qed.

Lemma JsMap_values_set_new {V} (k : Z) (v : V) (m : JsMap.t V) :
  v ∈ JsMap.values (JsMap.set k v m).
Proof.
  unfold JsMap.values. induction m as [|[k' v'] m IH]; simpl.
  - set_solver.
  - case_bool_decide; simpl; set_solver.
Qed.

Lemma JsMap_values_set_old {V} (k : Z) (v x : V) (m : JsMap.t V) :
  x ∈ JsMap.values (JsMap.set k v m) → x = v ∨ x ∈ JsMap.values m.
Proof.
  unfold JsMap.values. induction m as [|[k' v'] m IH]; simpl.
  - set_solver.
  - case_bool_decide; simpl; set_solver.
Qed.

(** A key that is not in the map is appended. *)
Lemma JsMap_set_fresh {V} (k : Z) (v : V) (m : JsMap.t V) :
  k ∉ m.*1 → JsMap.set k v m = (m ++ [(k, v)])%list.
Proof.
  induction m as [|[k' v'] m IH]; simpl; [done|].
  intros Hk. rewrite bool_decide_eq_false_2 by set_solver.
  f_equal. apply IH. set_solver.
Qed.

Lemma find_None_elem_of {A} (f : A → bool) (l : list A) :
  List.find f l = None ↔ ∀ x, x ∈ l → f x = false.
Proof.
  induction l as [|a l IH]; simpl.
  - split; [intros _ x Hx; by apply elem_of_nil in Hx|done].
  - destruct (f a) eqn:Hfa.
    + split; [done|]. intros Hall. rewrite Hall in Hfa; [done|set_solver].
    + rewrite IH. split.
      * intros Hall x [->|Hx]%elem_of_cons; auto.
      * intros Hall x Hx. apply Hall. set_solver.
Qed.

(** ** The transition rules *)

Lemma body_status_status_body s : body_status (status_body s) = Some s.
Proof. by destruct s. Qed.

(** A transition to [accepted], [picked] or [delivered] passes the rules
    only from the status just before it, and only for the user who is
    already the delivery's carrier. *)
Lemma status_rules_pass uid s d :
  status_rules uid s d = None → s ≠ requested →
  predecessor s = Some (status d) ∧ carrierId d = Some uid.
Proof.
  unfold status_rules. intros Hrules Hs.
  destruct (bool_decide (Some uid = carrierId d)) eqn:Hc; simpl in Hrules.
  - apply bool_decide_eq_true in Hc.
    destruct s; try done; simpl;
      case_bool_decide as Hst; simpl in Hrules; try done;
      by rewrite Hst.
  - destruct (bool_decide (uid = senderId d)); simpl in Hrules; [|done].
    destruct s; try done; case_bool_decide; simpl in Hrules; done.
Qed.

(** From any other status, the sender or carrier asking for [accepted],
    [picked] or [delivered] gets a 400 of the invalid-transition kind. *)
Lemma status_rules_wrong_source uid s d :
  uid = senderId d ∨ carrierId d = Some uid →
  s ≠ requested → predecessor s ≠ Some (status d) →
  ∃ r, status_rules uid s d = Some r ∧ error_kind r = Some InvalidTransition.
Proof.
  intros Hassoc Hs Hpre. unfold status_rules.
  assert (negb (bool_decide (Some uid = carrierId d))
          && negb (bool_decide (uid = senderId d)) = false) as ->.
  { destruct Hassoc as [->| ->].
    - rewrite (bool_decide_eq_true_2 (senderId d = senderId d)) by done.
      by rewrite andb_false_r.
    - by rewrite (bool_decide_eq_true_2 (Some uid = Some uid)) by done. }
  destruct s; try done; simpl in Hpre;
    (rewrite bool_decide_eq_false_2 by congruence);
    simpl; eexists; (split; [reflexivity|done]).
Qed.

(** A transition to [requested] passes the rules from every status, for
    the sender as for the carrier. *)
Lemma status_rules_requested uid d :
  uid = senderId d ∨ carrierId d = Some uid →
  status_rules uid requested d = None.
Proof.
  intros Hassoc. unfold status_rules.
  destruct Hassoc as [->| ->].
  - rewrite (bool_decide_eq_true_2 (senderId d = senderId d)) by done.
    by rewrite andb_false_r.
  - by rewrite (bool_decide_eq_true_2 (Some uid = Some uid)) by done.
Qed.

(** A transition that passes the rules for [accepted], [picked] or
    [delivered] keeps the invariant of a delivery that has it ([picked]
    and [delivered] keep the carrier; no delivery with the invariant
    passes the rules for [accepted], its carrier being unset). *)
Lemma guarded_transition_keeps_invariant uid s d :
  status_rules uid s d = None → s ≠ requested → carrier_invariant d →
  carrier_invariant
    (MemStorage.with_status d s
       (if bool_decide (s = accepted) then Some uid else None)).
Proof.
  intros Hrules Hs Hinv.
  apply status_rules_pass in Hrules as [Hpre Hcar]; [|done].
  unfold carrier_invariant in *. rewrite Hcar in Hinv.
  destruct s; simpl in *; simplify_eq; try rewrite Hcar; naive_solver.
Qed.

(** A user who is not yet the carrier cannot pass the rules for
    [accepted]; the store is left as it was. *)
Lemma accept_needs_carrier {S} `{IStorage S} (st : S) uid id d :
  getDeliveryById id st = Some d → carrierId d ≠ Some uid →
  ∃ code message,
    patch_delivery_status uid id (status_body accepted) st
    = (st, Message code message).
Proof.
  intros Hget Hc. unfold patch_delivery_status.
  rewrite body_status_status_body, Hget.
  destruct (status_rules uid accepted d) as [r|] eqn:Hr.
  - unfold status_rules in Hr.
    repeat (case_match; simplify_eq); eauto.
  - apply status_rules_pass in Hr as [_ ?]; done.
Qed.

(** C1 (the code departs from the claim). On the seeded store, delivery 3
    is [requested], sent by user 1 and without a carrier; user 2, who is
    not the sender, asks for [accepted] and is answered 403 "Forbidden: Not
    associated with this delivery"; the store is unchanged. *)
Theorem accept_by_another_user_is_refused (now : Z) :
  let st := MemStorage.new now in
  (∃ d, getDeliveryById 3 st = Some d ∧ status d = requested
        ∧ senderId d = 1 ∧ carrierId d = None)
  ∧ patch_delivery_status 2 3 (status_body accepted) st
    = (st, Message 403 "Forbidden: Not associated with this delivery").
Proof.
  split.
  - eexists. split; [vm_compute; reflexivity|]. by vm_compute.
  - by vm_compute.
Qed.

(** C2 (the code departs from the claim). On the seeded store every
    delivery satisfies the invariant; delivery 2 is [accepted] with carrier
    2. Its sender, user 3, asks for [requested]: the answer is 200 and the
    stored delivery is [requested] with [carrierId] 2, against the
    invariant. *)
Theorem reset_breaks_carrier_invariant (now : Z) :
  let st := MemStorage.new now in
  let '(st', response) := patch_delivery_status 3 2 (status_body requested) st in
  Forall carrier_invariant (JsMap.values (MemStorage.deliveriesData st))
  ∧ ∃ d', response = Json 200 (Some d')
          ∧ getDeliveryById 2 st' = Some d'
          ∧ status d' = requested ∧ carrierId d' = Some 2
          ∧ ¬ carrier_invariant d'.
Proof.
  vm_compute patch_delivery_status. split.
  - apply (bool_decide_unpack _). by vm_compute.
  - eexists. split; [reflexivity|]. split; [by vm_compute|].
    split; [done|]. split; [done|].
    unfold carrier_invariant; simpl. intros [_ Hinv]. by specialize (Hinv eq_refl).
Qed.

(** C3 (the code departs from the claim). On the seeded store delivery 1 is
    [picked]. Its sender, user 1, asks for [requested]: the answer is 200
    and the stored status is [requested], two stages back. *)
Theorem reset_moves_status_backward (now : Z) :
  let st := MemStorage.new now in
  let '(st', response) := patch_delivery_status 1 1 (status_body requested) st in
  ∃ d d', getDeliveryById 1 st = Some d ∧ status d = picked
          ∧ response = Json 200 (Some d')
          ∧ getDeliveryById 1 st' = Some d'
          ∧ status d' = requested
          ∧ stage (status d') < stage (status d).
Proof.
  vm_compute patch_delivery_status.
  eexists _, _. split; [by vm_compute|]. split; [done|].
  split; [reflexivity|]. split; [by vm_compute|]. done.
Qed.

(** C9, amended. The sender of a delivery, not being its carrier, asks for
    [accepted]: the request fails and the store is unchanged; the failure
    is Forbidden when the delivery is [requested], and InvalidTransition in
    any other status, the source status being checked first. *)
Theorem sender_cannot_accept {S} `{IStorage S} (st : S) (id : Z) (d : Delivery) :
  getDeliveryById id st = Some d →
  carrierId d ≠ Some (senderId d) →
  let '(st', response) :=
    patch_delivery_status (senderId d) id (status_body accepted) st in
  st' = st
  ∧ getDeliveryById id st' = Some d
  ∧ ¬ succeeds response
  ∧ error_kind response
    = Some (if bool_decide (status d = requested) then Forbidden
            else InvalidTransition).
Proof.
  intros Hget Hc. unfold patch_delivery_status.
  rewrite body_status_status_body, Hget. unfold status_rules.
  rewrite (bool_decide_eq_false_2 (Some (senderId d) = carrierId d)) by done.
  rewrite (bool_decide_eq_true_2 (senderId d = senderId d)) by done. simpl.
  case_bool_decide; simpl;
    (split; [done|]); (split; [done|]); (split; [by intros []|]); reflexivity.
Qed.

Lemma sender_cannot_accept_witness :
  ∃ d, getDeliveryById 3 (MemStorage.new 0) = Some d
       ∧ carrierId d ≠ Some (senderId d)
       ∧ status d = requested
       ∧ let '(st', response) :=
           patch_delivery_status (senderId d) 3 (status_body accepted)
             (MemStorage.new 0) in
         st' = MemStorage.new 0
         ∧ getDeliveryById 3 st' = Some d
         ∧ ¬ succeeds response
         ∧ error_kind response
           = Some (if bool_decide (status d = requested) then Forbidden
                   else InvalidTransition).
Proof.
  eexists. split; [vm_compute; reflexivity|]. split; [done|]. split; [done|].
  apply (sender_cannot_accept (MemStorage.new 0) 3); [vm_compute; reflexivity|done].
Defined.

(** C9, as stated, fails: on the seeded store delivery 1 is [picked]; its
    sender, user 1, asks for [accepted] and the failure is
    InvalidTransition, not Forbidden. *)
Lemma sender_accept_not_always_forbidden :
  let st := MemStorage.new 0 in
  let response := (patch_delivery_status 1 1 (status_body accepted) st).2 in
  (∃ d, getDeliveryById 1 st = Some d ∧ senderId d = 1 ∧ status d = picked)
  ∧ response = Message 400 "Can only accept deliveries with 'requested' status"
  ∧ error_kind response = Some InvalidTransition
  ∧ error_kind response ≠ Some Forbidden.
Proof.
  split; [eexists; split; [vm_compute; reflexivity|done]|].
  split; [by vm_compute|]. split; by vm_compute.
Qed.

(** ** Creation of a delivery *)






(** A body that claims the delivery as already delivered by user 7 is
    accepted and stored as a fresh request. *)
Example created_delivery_preclaimed :
  let body : jsobject :=
    <["status" := JStr "delivered"]>
    (<["carrierId" := JNum 7]>
    (<["pickupLocation" := JStr "Pune"]>
    (<["dropLocation" := JStr "Mumbai"]>
    (<["packageSize" := JStr "medium"]>
    (<["packageWeight" := JNum 3500]>
    (<["preferredDeliveryDate" := JStr "2023-06-22"]>
    (<["preferredDeliveryTime" := JStr "Before 6:00 PM"]>
    (<["deliveryFee" := JNum 30000]> ∅)))))))) in
  (post_deliveries 1 body 5 MemStorage.empty).2
  = Json 201
      (mkDelivery 1 1 None "Pune" "Mumbai" medium 3500 None None
         "2023-06-22" "Before 6:00 PM" requested 30000 5).
Proof. by vm_compute. Qed.

(** ** Reviews *)

(** The parse takes any integer as a rating. *)
Lemma insertReviewSchema_review_body uid did eid r c :
  insertReviewSchema (<["reviewerId" := JNum uid]> (review_body did eid r c))
  = Some (mkInsertReview did uid eid r c).
Proof. by destruct c. Qed.

Lemma post_reviews_review_body {S} `{IStorage S} uid did eid r c now (st : S) :
  post_reviews uid (review_body did eid r c) now st
  = submitReview uid (mkInsertReview did uid eid r c) now st.
Proof. unfold post_reviews. by rewrite insertReviewSchema_review_body. Qed.

(** C6 (the code departs from the claim). On the seeded store, once the
    carrier (user 2) has marked delivery 1 as delivered, the carrier's
    review of the sender with rating 6, or 0, or -8, is answered 201 and
    stored; with rating 6 the sender's aggregate rating becomes 6. *)
Theorem rating_out_of_range_is_stored (now : Z) :
  let st := run [PatchStatus 2 1 (status_body delivered)] (MemStorage.new now) in
  (∀ r, r ∈ [6; 0; -8] →
     let '(st', response) := post_reviews 2 (review_body 1 1 r None) now st in
     response = Json 201 (mkReview 2 1 2 1 r None now)
     ∧ mkReview 2 1 2 1 r None now ∈ JsMap.values (MemStorage.reviewsData st'))
  ∧ (user_rating
       <$> JsMap.get 1 (MemStorage.usersData
                          (post_reviews 2 (review_body 1 1 6 None) now st).1))
    = Some (Some 6).
Proof.
  split; [|by vm_compute].
  intros r Hr.
  assert (r = 6 ∨ r = 0 ∨ r = -8) as [->|[->| ->]] by set_solver;
    vm_compute; (split; [done|]); set_solver.
Qed.


Lemma Mem_updateUserRating_reviews uid st :
  MemStorage.reviewsData (MemStorage.updateUserRating uid st)
  = MemStorage.reviewsData st.
Proof. unfold MemStorage.updateUserRating. by repeat case_match. Qed.

Lemma Mem_updateUserRating_deliveries uid st :
  MemStorage.deliveriesData (MemStorage.updateUserRating uid st)
  = MemStorage.deliveriesData st.
Proof. unfold MemStorage.updateUserRating. by repeat case_match. Qed.

Lemma Mem_createReview_reviews rd now st :
  MemStorage.reviewsData (MemStorage.createReview rd now st).1
  = JsMap.set (MemStorage.next_reviewId st)
      (mkReview (MemStorage.next_reviewId st) (ir_deliveryId rd)
         (ir_reviewerId rd) (ir_revieweeId rd) (ir_rating rd) (ir_comment rd)
         now)
      (MemStorage.reviewsData st).
Proof. simpl. by rewrite Mem_updateUserRating_reviews. Qed.

(** Storing a review whose pair is new keeps the pairs distinct, whether
    the key is new or not. *)
Lemma one_review_per_pair_set k v (m : JsMap.t Review) :
  one_review_per_pair (JsMap.values m) →
  (∀ x, x ∈ JsMap.values m → review_pair x ≠ review_pair v) →
  one_review_per_pair (JsMap.values (JsMap.set k v m)).
Proof.
  unfold one_review_per_pair, JsMap.values.
  induction m as [|[k' v'] m IH]; simpl; intros Hnd Hnew.
  - apply NoDup_singleton.
  - apply NoDup_cons in Hnd as [Hv' Hnd].
    case_bool_decide; simpl; apply NoDup_cons.
    + split; [|done]. intros (x & Hx1 & Hx2)%list_elem_of_fmap.
      apply (Hnew x); [by apply list_elem_of_further|done].
    + split.
      * intros (x & Hx1 & Hx2)%list_elem_of_fmap.
        apply (JsMap_values_set_old k v x m) in Hx2 as [->|Hx2].
        -- apply (Hnew v'); [apply list_elem_of_here|done].
        -- apply Hv'. apply list_elem_of_fmap. eauto.
      * apply IH; [done|]. intros x Hx. apply Hnew.
        by apply list_elem_of_further.
Qed.

Lemma find_pair_None (did rid : Z) (l : list Review) :
  List.find (λ r, bool_decide (deliveryId r = did)
                  && bool_decide (reviewerId r = rid)) l = None
  ↔ ∀ x, x ∈ l → review_pair x ≠ (did, rid).
Proof.
  rewrite find_None_elem_of. unfold review_pair.
  split; intros Hall x Hx; specialize (Hall x Hx).
  - intros [= Hd Hr]. by rewrite !bool_decide_eq_true_2 in Hall.
  - apply andb_false_iff.
    destruct (decide (deliveryId x = did)) as [Hd|Hd];
      [right|left]; apply bool_decide_eq_false_2; congruence.
Qed.

Lemma head_filter_find {A} (f : A → bool) (l : list A) :
  head (List.filter f l) = List.find f l.
Proof. induction l as [|x l IH]; simpl; [done|]. by destruct (f x). Qed.

Global Program Instance MemStorage_ReviewStorage : ReviewStorage MemStorage.t := {
  reviews_of := Mem_reviews;
}.
Next Obligation. intros. apply find_pair_None. Qed.
Next Obligation. intros. by eexists. Qed.
Next Obligation.
  intros. unfold Mem_reviews. rewrite Mem_createReview_reviews.
  apply JsMap_values_set_new.
Qed.
Next Obligation.
  intros rd now st Hnd Hnew. unfold Mem_reviews.
  rewrite Mem_createReview_reviews. by apply one_review_per_pair_set.
Qed.
Next Obligation.
  intros. simpl. unfold MemStorage.getDeliveryById.
  by rewrite Mem_updateUserRating_deliveries.
Qed.
Next Obligation. done. Qed.
Next Obligation.
  intros. simpl. unfold MemStorage.updateDeliveryStatus. by case_match.
Qed.

Global Program Instance DatabaseStorage_ReviewStorage
  : ReviewStorage DatabaseStorage.t := {
  reviews_of := DatabaseStorage.reviews;
}.
Next Obligation.
  intros. simpl. unfold DatabaseStorage.getReviewByDeliveryAndReviewer.
  rewrite head_filter_find. apply find_pair_None.
Qed.
Next Obligation. intros. by eexists. Qed.
Next Obligation.
  intros. simpl. apply elem_of_app. right. apply list_elem_of_here.
Qed.
Next Obligation.
  intros rd now st Hnd Hnew. simpl. unfold one_review_per_pair in *.
  rewrite fmap_app. apply NoDup_app. split; [done|]. split.
  - intros p (x & -> & Hx)%list_elem_of_fmap Hp.
    apply list_elem_of_singleton in Hp. by apply (Hnew x).
  - apply NoDup_singleton.
Qed.
Next Obligation. done. Qed.
Next Obligation. done. Qed.
Next Obligation. done. Qed.

Section Reviews.

Context {S : Type} `{ReviewStorage S}.

(** A submission either stores the review through [createReview] and
    answers 201, or leaves the store as it was. *)
Lemma submitReview_result (st : S) uid rd now :
  (getReviewByDeliveryAndReviewer (ir_deliveryId rd) uid st = None
   ∧ submitReview uid rd now st
     = ((createReview rd now st).1, Json 201 (createReview rd now st).2))
  ∨ (∃ code message, submitReview uid rd now st = (st, Message code message)).
Proof.
  unfold submitReview.
  repeat (case_match; simplify_eq); eauto.
  all: left; split; [done|].
  all: match goal with
       | Hc : createReview _ _ _ = _ |- _ => by rewrite Hc
       end.
Qed.








(** A handler that runs its three steps without another request in
    between is the handler of the route. *)
Lemma review_steps uid body now (st : S) :
  let '(st1, t1) := review_step (ReviewStarted uid body now) st in
  let '(st2, t2) := review_step t1 st1 in
  let '(st3, t3) := review_step t2 st2 in
  (st3, review_response_of t3)
  = (let '(st', r) := post_reviews uid body now st in (st', Some r)).
Proof.
  unfold post_reviews, submitReview. cbn [review_step].
  destruct (insertReviewSchema _) as [rd|]; [|done]. cbn [review_step].
  destruct (getDeliveryById _ st) as [d|]; [|done].
  destruct (negb (bool_decide (status d = delivered))); [done|].
  destruct (negb (bool_decide (Some uid = carrierId d))
            && negb (bool_decide (uid = senderId d))); [done|].
  destruct (negb (bool_decide (Some (ir_revieweeId rd) = _))); [done|].
  cbn [review_step].
  destruct (getReviewByDeliveryAndReviewer _ _ st); [done|].
  by destruct (createReview _ _ _).
Qed.

End Reviews.

(** The scenario of the specification, on the seeded store: the carrier
    (user 2) delivers delivery 1 and reviews the sender (user 1); the
    review is stored and the carrier's second review of the delivery is
    refused. *)
Example review_then_conflict :
  let st := run [PatchStatus 2 1 (status_body delivered)] (MemStorage.new 0) in
  let '(st', response) := post_reviews 2 (review_body 1 1 4 None) 7 st in
  response = Json 201 (mkReview 2 1 2 1 4 None 7)
  ∧ (post_reviews 2 (review_body 1 1 5 None) 8 st').2
    = Message 400 "You have already reviewed this delivery".
Proof. by vm_compute. Qed.


(** ** The aggregate rating *)

Lemma foldl_rating_sum (l : list Review) (a : Z) :
  foldl (λ sum review, sum + rating review) a l
  = a + foldr Z.add 0 (rating <$> l).
Proof.
  revert a. induction l as [|x l IH]; intros a; [simpl; lia|].
  rewrite fmap_cons. cbn [foldl foldr]. rewrite IH. lia.
Qed.

Lemma Math_round_nonneg (x : Q) :
  (0 <= x)%Q → Math_round x = round_half_away_from_zero x.
Proof.
  intros Hx. unfold round_half_away_from_zero, Math_round.
  by rewrite (proj2 (Qle_bool_iff 0 x) Hx).
Qed.

Lemma mean_nonneg (l : list Z) : Forall (λ r, 0 ≤ r) l → (0 <= mean l)%Q.
Proof.
  intros Hl. unfold mean.
  assert (0 ≤ foldr Z.add 0 l) as Hsum.
  { induction Hl; simpl; lia. }
  unfold Qdiv. apply Qmult_le_0_compat.
  - change 0%Q with (inject_Z 0). by rewrite <- Zle_Qle.
  - apply Qinv_le_0_compat. change 0%Q with (inject_Z 0).
    rewrite <- Zle_Qle. lia.
Qed.

Lemma review_state_post_deliveries uid body now (st : MemStorage.t) :
  review_state (post_deliveries uid body now st).1 = review_state st.
Proof. unfold post_deliveries. by case_match. Qed.

Lemma review_state_patch uid id body (st : MemStorage.t) :
  review_state (patch_delivery_status uid id body st).1 = review_state st.
Proof.
  unfold patch_delivery_status.
  destruct (body_status body) as [s|]; [|done].
  destruct (getDeliveryById id st) as [d|]; [|done].
  destruct (status_rules uid s d); [done|].
  destruct (updateDeliveryStatus _ _ _ _) as [st' u] eqn:Hupd.
  change st' with (st', u).1. rewrite <- Hupd. simpl.
  unfold MemStorage.updateDeliveryStatus.
  by destruct (JsMap.get id (MemStorage.deliveriesData st)).
Qed.

Lemma Mem_fresh_reviewId_state st st' :
  review_state st' = review_state st →
  Mem_fresh_reviewId st → Mem_fresh_reviewId st'.
Proof. unfold review_state, Mem_fresh_reviewId. by intros [= _ -> ->]. Qed.

Lemma rating_consistent_state st st' :
  review_state st' = review_state st →
  rating_consistent st → rating_consistent st'.
Proof.
  unfold review_state, rating_consistent, Mem_received, Mem_reviews.
  by intros [= -> -> _].
Qed.

(** The recomputation, on the user it is run for and on the others. *)
Lemma Mem_updateUserRating_self uid u (st : MemStorage.t) :
  JsMap.get uid (MemStorage.usersData st) = Some u →
  Mem_received uid st ≠ [] →
  ∃ u', JsMap.get uid (MemStorage.usersData (MemStorage.updateUserRating uid st))
        = Some u'
        ∧ user_rating u' = Some (Math_round (mean (rating <$> Mem_received uid st)))
        ∧ totalReviews u'
          = Some (Z.of_nat (length (rating <$> Mem_received uid st))).
Proof.
  intros Hget Hrec. unfold MemStorage.updateUserRating. rewrite Hget.
  fold (Mem_reviews st). fold (Mem_received uid st).
  rewrite bool_decide_eq_false_2 by (by destruct (Mem_received uid st)).
  eexists. cbn [MemStorage.usersData]. rewrite JsMap_get_set_eq.
  split; [done|]. cbn [user_rating totalReviews].
  unfold mean. rewrite foldl_rating_sum, Z.add_0_l, !length_fmap. done.
Qed.

Lemma Mem_updateUserRating_other uid uid' (st : MemStorage.t) :
  uid ≠ uid' →
  JsMap.get uid' (MemStorage.usersData (MemStorage.updateUserRating uid st))
  = JsMap.get uid' (MemStorage.usersData st).
Proof.
  intros Hne. unfold MemStorage.updateUserRating.
  repeat case_match; try done.
  cbn [MemStorage.usersData]. by apply JsMap_get_set_ne.
Qed.

Lemma Mem_updateUserRating_absent uid (st : MemStorage.t) :
  JsMap.get uid (MemStorage.usersData st) = None →
  MemStorage.updateUserRating uid st = st.
Proof. intros Hget. unfold MemStorage.updateUserRating. by rewrite Hget. Qed.

Lemma Mem_updateUserRating_next uid (st : MemStorage.t) :
  MemStorage.next_reviewId (MemStorage.updateUserRating uid st)
  = MemStorage.next_reviewId st.
Proof. unfold MemStorage.updateUserRating. by repeat case_match. Qed.

Lemma Mem_createReview_appends rd now (st : MemStorage.t) :
  Mem_fresh_reviewId st →
  Mem_reviews (MemStorage.createReview rd now st).1
  = (Mem_reviews st
     ++ [mkReview (MemStorage.next_reviewId st) (ir_deliveryId rd)
           (ir_reviewerId rd) (ir_revieweeId rd) (ir_rating rd)
           (ir_comment rd) now])%list.
Proof.
  intros Hfresh. unfold Mem_reviews. rewrite Mem_createReview_reviews.
  rewrite JsMap_set_fresh.
  - unfold JsMap.values. by rewrite fmap_app.
  - intros Hin. unfold Mem_fresh_reviewId in Hfresh.
    rewrite Forall_forall in Hfresh. specialize (Hfresh _ Hin). lia.
Qed.

Lemma Mem_createReview_fresh rd now (st : MemStorage.t) :
  Mem_fresh_reviewId st →
  Mem_fresh_reviewId (MemStorage.createReview rd now st).1.
Proof.
  intros Hfresh. pose proof Hfresh as Hkeys. unfold Mem_fresh_reviewId in *.
  cbn [fst MemStorage.createReview].
  rewrite Mem_updateUserRating_next, Mem_updateUserRating_reviews.
  cbn [MemStorage.reviewsData MemStorage.next_reviewId].
  rewrite JsMap_set_fresh.
  - rewrite fmap_app. apply Forall_app. split.
    + eapply Forall_impl; [exact Hkeys|]. simpl. intros; lia.
    + apply Forall_singleton. simpl. lia.
  - intros Hin. rewrite Forall_forall in Hkeys. specialize (Hkeys _ Hin). lia.
Qed.

Lemma Mem_createReview_consistent rd now (st : MemStorage.t) :
  Mem_fresh_reviewId st → rating_consistent st →
  rating_consistent (MemStorage.createReview rd now st).1.
Proof.
  intros Hfresh Hcons uid u Hget.
  pose proof (Mem_createReview_appends rd now st Hfresh) as Happ.
  set (new := mkReview _ _ _ _ _ _ _) in Happ.
  set (st1 := MemStorage.mk (MemStorage.usersData st)
                (MemStorage.deliveriesData st)
                (JsMap.set (MemStorage.next_reviewId st) new
                   (MemStorage.reviewsData st))
                (MemStorage.next_userId st) (MemStorage.next_deliveryId st)
                (MemStorage.next_reviewId st + 1)).
  change (MemStorage.createReview rd now st).1
    with (MemStorage.updateUserRating (ir_revieweeId rd) st1) in *.
  assert (Mem_reviews st1 = Mem_reviews st ++ [new])%list as Hst1.
  { rewrite <- Happ. unfold Mem_reviews.
    by rewrite Mem_updateUserRating_reviews. }
  assert (∀ k, Mem_received k (MemStorage.updateUserRating (ir_revieweeId rd) st1)
               = Mem_received k st1) as Hrec.
  { intros k. unfold Mem_received, Mem_reviews.
    by rewrite Mem_updateUserRating_reviews. }
  rewrite Hrec.
  destruct (decide (ir_revieweeId rd = uid)) as [<-|Hne].
  - destruct (JsMap.get (ir_revieweeId rd) (MemStorage.usersData st1))
      as [u0|] eqn:Hget0.
    + intros ratings _.
      destruct (Mem_updateUserRating_self _ _ _ Hget0) as (u' & Hget' & Hr & Ht).
      { unfold Mem_received. rewrite Hst1, List.filter_app. simpl.
        rewrite bool_decide_eq_true_2 by done.
        by destruct (List.filter _ (Mem_reviews st)). }
      rewrite Hget in Hget'. by simplify_eq.
    + rewrite Mem_updateUserRating_absent in Hget by done. congruence.
  - rewrite Mem_updateUserRating_other in Hget by done.
    assert (Mem_received uid st1 = Mem_received uid st) as ->.
    { unfold Mem_received. rewrite Hst1, List.filter_app. simpl.
      rewrite bool_decide_eq_false_2 by done. apply app_nil_r. }
    by apply Hcons.
Qed.

Lemma Mem_handle_consistent (q : Request) (st : MemStorage.t) :
  Mem_fresh_reviewId st → rating_consistent st →
  Mem_fresh_reviewId (handle q st) ∧ rating_consistent (handle q st).
Proof.
  intros Hfresh Hcons.
  destruct q as [uid body now|uid id body|uid body now]; simpl.
  - pose proof (review_state_post_deliveries uid body now st).
    eauto using Mem_fresh_reviewId_state, rating_consistent_state.
  - pose proof (review_state_patch uid id body st).
    eauto using Mem_fresh_reviewId_state, rating_consistent_state.
  - unfold post_reviews. destruct (insertReviewSchema _) as [rd|]; [|done].
    destruct (submitReview_result st uid rd now)
      as [[_ ->]|(code & message & ->)]; [|done].
    split; [by apply Mem_createReview_fresh|by apply Mem_createReview_consistent].
Qed.

Lemma Mem_run_consistent (qs : list Request) (st : MemStorage.t) :
  Mem_fresh_reviewId st → rating_consistent st →
  Mem_fresh_reviewId (run qs st) ∧ rating_consistent (run qs st).
Proof.
  revert st. induction qs as [|q qs IH]; intros st Hfresh Hcons; [done|].
  destruct (Mem_handle_consistent q st Hfresh Hcons). by apply IH.
Qed.

(** The seeded store is in order. *)
Lemma Mem_new_consistent (now : Z) :
  Mem_fresh_reviewId (MemStorage.new now) ∧ rating_consistent (MemStorage.new now).
Proof.
  split.
  - apply (bool_decide_unpack _). by vm_compute.
  - intros uid u. vm_compute MemStorage.new. unfold JsMap.get. simpl.
    repeat case_bool_decide; simpl; intros [= <-]; subst uid;
      by vm_compute.
Qed.

(** X22. Start from an in-memory store that is in order (such as the
    seeded one) and serve any requests. A user who has received N
    reviews, N at least 1, has [totalReviews] N and the rating
    [Math.round] of their mean, the nearest integer with a tie going up;
    when no rating is negative (as for ratings from 1 to 5), this is
    rounding half away from zero. *)
Theorem aggregate_rating (st0 : MemStorage.t) (qs : list Request)
    (uid : Z) (u : User) :
  Mem_fresh_reviewId st0 → rating_consistent st0 →
  JsMap.get uid (MemStorage.usersData (run qs st0)) = Some u →
  let ratings := rating <$> Mem_received uid (run qs st0) in
  ratings ≠ [] →
  totalReviews u = Some (Z.of_nat (length ratings))
  ∧ user_rating u = Some (Math_round (mean ratings))
  ∧ (Forall (λ r, 0 ≤ r) ratings →
     user_rating u = Some (round_half_away_from_zero (mean ratings))).
Proof.
  intros Hfresh Hcons Hget ratings Hne.
  destruct (Mem_run_consistent qs st0 Hfresh Hcons) as [_ Hrun].
  destruct (Hrun uid u Hget Hne) as [Hr Ht].
  split; [done|]. split; [done|].
  intros Hpos. rewrite Hr. f_equal. apply Math_round_nonneg.
  by apply mean_nonneg.
Qed.

Lemma aggregate_rating_witness :
  let qs :=
    [PatchStatus 2 2 (status_body picked);
     PatchStatus 2 2 (status_body delivered);
     PostReview 3 (review_body 2 2 4 None) 9] in
  let st0 := MemStorage.new 0 in
  Mem_fresh_reviewId st0 ∧ rating_consistent st0
  ∧ ∃ u, JsMap.get 2 (MemStorage.usersData (run qs st0)) = Some u
         ∧ let ratings := rating <$> Mem_received 2 (run qs st0) in
           ratings = [5; 4]
           ∧ Forall (λ r, 0 ≤ r) ratings
           ∧ totalReviews u = Some (Z.of_nat (length ratings))
           ∧ user_rating u = Some (Math_round (mean ratings))
           ∧ (Forall (λ r, 0 ≤ r) ratings →
              user_rating u = Some (round_half_away_from_zero (mean ratings))).
Proof.
  intros qs st0.
  split; [apply Mem_new_consistent|]. split; [apply Mem_new_consistent|].
  eexists. split; [vm_compute; reflexivity|]. intros ratings.
  split; [by vm_compute|].
  split; [apply (bool_decide_unpack _); by vm_compute|].
  apply (aggregate_rating st0 qs 2);
    [apply Mem_new_consistent|apply Mem_new_consistent
    |vm_compute; reflexivity|by vm_compute].
Defined.

(** C5. On the seeded store the carrier (user 2) holds a review rated 5;
    the carrier completes delivery 2 and its sender (user 3) rates the
    carrier -8, which the route accepts. The mean is -3/2: the stored
    rating is [Math.round (-3/2)], that is -1, where rounding half away
    from zero gives -2; [totalReviews] is 2. The same on a database that
    holds the rows of the seeded store. *)
Lemma aggregate_rating_negative_mean :
  let qs :=
    [PatchStatus 2 2 (status_body picked);
     PatchStatus 2 2 (status_body delivered);
     PostReview 3 (review_body 2 2 (-8) None) 9] in
  let st := run qs (MemStorage.new 0) in
  let db := run qs (db_of (MemStorage.new 0)) in
  rating <$> Mem_received 2 st = [5; -8]
  ∧ user_rating <$> JsMap.get 2 (MemStorage.usersData st) = Some (Some (-1))
  ∧ totalReviews <$> JsMap.get 2 (MemStorage.usersData st) = Some (Some 2)
  ∧ round_half_away_from_zero (mean [5; -8]) = -2
  ∧ rating <$> List.filter (λ r, bool_decide (revieweeId r = 2))
                 (DatabaseStorage.reviews db) = [5; -8]
  ∧ user_rating
    <$> List.find (λ u, bool_decide (user_id u = 2)) (DatabaseStorage.users db)
    = Some (Some (-1)).
Proof. by vm_compute. Qed.

(** The same recomputation in the database: after [createReview], every
    row of the reviewee carries the count and the rounded mean of the
    reviews received. *)
Lemma DB_createReview_rating rd now (st : DatabaseStorage.t) (u : User) :
  let st' := (DatabaseStorage.createReview rd now st).1 in
  let ratings :=
    rating <$> List.filter (λ r, bool_decide (revieweeId r = ir_revieweeId rd))
                 (DatabaseStorage.reviews st') in
  u ∈ DatabaseStorage.users st' → user_id u = ir_revieweeId rd →
  ratings ≠ []
  ∧ totalReviews u = Some (Z.of_nat (length ratings))
  ∧ user_rating u = Some (Math_round (mean ratings)).
Proof.
  intros st' ratings.
  set (received :=
         List.filter (λ r, bool_decide (revieweeId r = ir_revieweeId rd))
           (DatabaseStorage.reviews st')) in ratings.
  assert (received ≠ []) as Hne.
  { unfold received, st'. simpl. rewrite List.filter_app. simpl.
    rewrite bool_decide_eq_true_2 by done. by intros [_ ?]%app_nil. }
  assert (DatabaseStorage.users st'
          = (λ u, if bool_decide (user_id u = ir_revieweeId rd)
                  then mkUser (user_id u) (username u) (password u)
                         (fullName u) (role u)
                         (Some (Math_round
                                  (if bool_decide (received = []) then 0%Q
                                   else mean (rating <$> received))))
                         (Some (Z.of_nat (length received)))
                  else u) <$> DatabaseStorage.users st) as ->.
  { unfold mean. by rewrite length_fmap. }
  rewrite (bool_decide_eq_false_2 _ Hne).
  intros (u0 & -> & Hu0)%list_elem_of_fmap.
  destruct (decide (user_id u0 = ir_revieweeId rd)) as [Hk|Hk].
  - rewrite (bool_decide_eq_true_2 _ Hk). intros _.
    split; [unfold ratings; by destruct received|].
    unfold ratings. by rewrite length_fmap.
  - rewrite (bool_decide_eq_false_2 _ Hk). done.
Qed.

(** ** Acceptance, one request after the other and interleaved *)

(** A handler that runs its two steps without another request in between
    is the handler of the route. *)
Lemma step_step {S} `{IStorage S} uid id body (st : S) :
  let '(st1, t1) := step (Started uid id body) st in
  let '(st2, t2) := step t1 st1 in
  (st2, response_of t2)
  = (let '(st', r) := patch_delivery_status uid id body st in (st', Some r)).
Proof.
  unfold patch_delivery_status. simpl.
  destruct (body_status body) as [s|]; [|done]. simpl.
  destruct (getDeliveryById id st) as [d|]; [|done].
  destruct (status_rules uid s d); [done|].
  by destruct (updateDeliveryStatus _ _ _ _).
Qed.

Lemma status_rules_failure uid s d r :
  status_rules uid s d = Some r → ¬ succeeds r.
Proof.
  unfold status_rules. intros Hr Hok.
  repeat (case_match; simplify_eq); done.
Qed.

(** The rules on a request for [accepted] when the delivery is no longer
    [requested]. *)
Lemma status_rules_accept_taken uid uid1 d :
  status d ≠ requested → carrierId d = Some uid1 →
  status_rules uid accepted d
  = Some (if bool_decide (uid = uid1 ∨ uid = senderId d)
          then Message 400 "Can only accept deliveries with 'requested' status"
          else Message 403 "Forbidden: Not associated with this delivery").
Proof.
  intros Hst Hcar. unfold status_rules. rewrite Hcar.
  rewrite (bool_decide_eq_false_2 _ Hst).
  destruct (decide (uid = uid1)) as [->|Hne].
  { rewrite (bool_decide_eq_true_2 (Some uid1 = Some uid1)) by done.
    by rewrite (bool_decide_eq_true_2 (uid1 = uid1 ∨ _)) by (by left). }
  rewrite (bool_decide_eq_false_2 (Some uid = Some uid1)) by congruence.
  destruct (decide (uid = senderId d)) as [Hs|Hs].
  - rewrite (bool_decide_eq_true_2 _ Hs).
    by rewrite (bool_decide_eq_true_2 (_ ∨ _)) by (by right).
  - rewrite (bool_decide_eq_false_2 _ Hs).
    by rewrite (bool_decide_eq_false_2 (_ ∨ _)) by (by intros [|]).
Qed.

(** The update reads back, whatever the status of the row was. *)
Lemma DB_get_update id s c (st : DatabaseStorage.t) :
  DatabaseStorage.getDeliveryById id
    (DatabaseStorage.updateDeliveryStatus id s c st).1
  = DatabaseStorage.set_updateValues s c
    <$> DatabaseStorage.getDeliveryById id st.
Proof.
  unfold DatabaseStorage.getDeliveryById, DatabaseStorage.updateDeliveryStatus.
  cbn [fst DatabaseStorage.deliveries].
  induction (DatabaseStorage.deliveries st) as [|d l IH]; [done|].
  rewrite fmap_cons. cbn [List.filter].
  destruct (decide (delivery_id d = id)) as [Hd|Hd].
  - rewrite (bool_decide_eq_true_2 _ Hd).
    unfold DatabaseStorage.set_updateValues at 1. cbn [delivery_id].
    by rewrite (bool_decide_eq_true_2 _ Hd).
  - rewrite (bool_decide_eq_false_2 _ Hd).
    rewrite (bool_decide_eq_false_2 _ Hd). exact IH.
Qed.

(** ** Listing *)

Lemma sort_insert_perm {A} (cmp : A → A → Z) x l :
  sort_insert cmp x l ≡ₚ x :: l.
Proof.
  induction l as [|y l IH]; simpl; [done|].
  destruct (cmp x y <=? 0); [done|].
  rewrite IH. apply Permutation_swap.
Qed.

Lemma Array_sort_perm {A} (cmp : A → A → Z) l : Array_sort cmp l ≡ₚ l.
Proof.
  induction l as [|x l IH]; simpl; [done|].
  by rewrite sort_insert_perm, IH.
Qed.

Lemma sort_insert_newest_first x l :
  StronglySorted not_older l →
  StronglySorted not_older (sort_insert newest_first x l).
Proof.
  induction 1 as [|y l Hl IH Hy]; simpl.
  - repeat constructor.
  - destruct (Z.leb_spec (newest_first x y) 0) as [Hle|Hgt];
      unfold newest_first in *.
    + constructor; [by constructor|].
      constructor; [unfold not_older; lia|].
      eapply Forall_impl; [exact Hy|]. unfold not_older. intros; lia.
    + constructor; [done|].
      rewrite sort_insert_perm. constructor; [unfold not_older; lia|done].
Qed.

Lemma Array_sort_newest_first l :
  StronglySorted not_older (Array_sort newest_first l).
Proof.
  induction l as [|x l IH]; simpl; [constructor|].
  by apply sort_insert_newest_first.
Qed.

Lemma filter_if {A} (b : bool) (p : A → bool) (l : list A) :
  (if b then List.filter p l else l)
  = List.filter (λ x, if b then p x else true) l.
Proof.
  destruct b; [done|]. induction l as [|x l IH]; simpl; congruence.
Qed.

Lemma filter_filter_andb {A} (p q : A → bool) (l : list A) :
  List.filter q (List.filter p l) = List.filter (λ x, p x && q x) l.
Proof.
  induction l as [|x l IH]; simpl; [done|].
  destruct (p x); simpl; [destruct (q x)|]; congruence.
Qed.

Lemma truthy_str_Some v : truthy_str (Some v) = true ↔ v ≠ "".
Proof.
  simpl. rewrite negb_true_iff, bool_decide_eq_false. done.
Qed.

(** One filter: skipped when falsy, an exact match otherwise. *)
Lemma filter_test_spec (filters : gmap string string) (k : string)
    (field : string) :
  (if truthy_str (filters !! k)
   then bool_decide (Some field = filters !! k) else true) = true
  ↔ ∀ v, filters !! k = Some v → v ≠ "" → Some field = Some v.
Proof.
  destruct (filters !! k) as [v|] eqn:Hk.
  - destruct (truthy_str (Some v)) eqn:Ht.
    + apply truthy_str_Some in Ht. rewrite bool_decide_eq_true.
      split; [by intros -> v' [= ->]|]. intros Hall. by apply Hall.
    + split; [|done]. intros _ v' [= <-] Hv.
      apply truthy_str_Some in Hv. congruence.
  - simpl. split; [by intros|done].
Qed.

Lemma selects_spec (filters : gmap string string) (d : Delivery) :
  selects filters d = true ↔ satisfies_nonempty filters d.
Proof.
  unfold selects, satisfies_nonempty, eq_status, eq_pickupLocation,
    eq_dropLocation, eq_packageSize.
  rewrite !andb_true_iff, !filter_test_spec. split.
  - intros [[[H1 H2] H3] H4] k v Hk Hf Hv.
    unfold filter_keys in Hk.
    repeat (apply elem_of_cons in Hk as [->|Hk]); [..|by apply elem_of_nil in Hk];
      vm_compute filtered_field; eauto.
  - intros Hall.
    split_and!; intros v Hf Hv; [apply (Hall "status") | apply (Hall "pickupLocation")
      | apply (Hall "dropLocation") | apply (Hall "packageSize")];
      try done; unfold filter_keys; repeat constructor.
Qed.

Lemma fmap_dwu_delivery (f g : Delivery → option jsobject) (l : list Delivery) :
  dwu_delivery <$> ((λ d, mkDeliveryWithUser d (f d) (g d)) <$> l) = l.
Proof. induction l as [|d l IH]; csimpl; congruence. Qed.

Lemma Mem_listing_deliveries (filters : gmap string string) (st : MemStorage.t) :
  dwu_delivery <$> MemStorage.getDeliveriesWithFilters filters st
  = Array_sort newest_first
      (List.filter (selects filters)
         (JsMap.values (MemStorage.deliveriesData st))).
Proof.
  unfold MemStorage.getDeliveriesWithFilters. cbv zeta.
  rewrite fmap_dwu_delivery. f_equal. unfold selects.
  destruct (truthy_str (filters !! "status"));
    destruct (truthy_str (filters !! "pickupLocation"));
    destruct (truthy_str (filters !! "dropLocation"));
    destruct (truthy_str (filters !! "packageSize"));
    rewrite ?filter_filter_andb; cbn [andb];
    try (by rewrite <- (filter_if false (λ _, true)));
    apply List.filter_ext; intros d;
    destruct (eq_status filters d), (eq_pickupLocation filters d),
      (eq_dropLocation filters d), (eq_packageSize filters d); reflexivity.
Qed.

Lemma DB_listing_deliveries (filters : gmap string string)
    (st : DatabaseStorage.t) :
  dwu_delivery <$> DatabaseStorage.query_results filters st
  = Array_sort newest_first
      (List.filter (selects filters) (DatabaseStorage.deliveries st)).
Proof.
  unfold DatabaseStorage.query_results. cbv zeta.
  rewrite (fmap_dwu_delivery _ (λ _, None)). f_equal.
  unfold selects.
  destruct (truthy_str (filters !! "status"));
    destruct (truthy_str (filters !! "pickupLocation"));
    destruct (truthy_str (filters !! "dropLocation"));
    destruct (truthy_str (filters !! "packageSize"));
    cbn [app length bool_decide decide_rel forallb andb];
    try (apply List.filter_ext; intros d;
         destruct (eq_status filters d), (eq_pickupLocation filters d),
           (eq_dropLocation filters d), (eq_packageSize filters d);
         reflexivity).
  simpl. induction (DatabaseStorage.deliveries st) as [|d l IH]; simpl; congruence.
Qed.

Lemma password_not_public : "password" ∉ public_fields.
Proof. apply (bool_decide_unpack _). by vm_compute. Qed.

Lemma dom_userSafe (u : User) : dom (MemStorage.userSafe u) = public_fields.
Proof.
  unfold MemStorage.userSafe, public_fields.
  rewrite !dom_insert_L, dom_empty_L. set_solver.
Qed.

Lemma dom_userColumns (u : User) :
  dom (DatabaseStorage.userColumns u) ⊆ public_fields.
Proof.
  unfold DatabaseStorage.userColumns, public_fields.
  rewrite !dom_insert_L, dom_empty_L. set_solver.
Qed.

Lemma enum_label_spec {A} (name : A → string) (enum : list A) (v : string) :
  enum_label_of name enum v ↔ ∃ a, a ∈ enum ∧ name a = v.
Proof.
  unfold enum_label_of, parse_enum. split.
  - intros [a Hfind]. apply find_some in Hfind as [Hin Ha].
    apply bool_decide_eq_true in Ha. exists a. by rewrite list_elem_of_In.
  - intros (a & Hin & Ha).
    destruct (List.find _ enum) as [a'|] eqn:Hfind; [by eexists|].
    apply find_None_elem_of with (x := a) in Hfind; [|done].
    by apply bool_decide_eq_false in Hfind.
Qed.

Lemma conditions_accepted_spec (filters : gmap string string) :
  DatabaseStorage.conditions_accepted filters = true
  ↔ (∀ v, filters !! "status" = Some v → v ≠ "" → ∃ s, status_name s = v)
    ∧ (∀ v, filters !! "packageSize" = Some v → v ≠ "" →
            ∃ s, size_name s = v).
Proof.
  unfold DatabaseStorage.conditions_accepted, DatabaseStorage.enum_label.
  rewrite andb_true_iff.
  assert (∀ (A : Type) (name : A → string) (enum : list A) (k : string),
            (∀ a, a ∈ enum) →
            (if truthy_str (filters !! k)
             then match filters !! k with
                  | Some v => bool_decide (is_Some (parse_enum name enum v))
                  | None => true
                  end
             else true) = true
            ↔ ∀ v, filters !! k = Some v → v ≠ "" → ∃ a, name a = v) as Hone.
  { intros A name enum k Hall. destruct (filters !! k) as [v|]; simpl.
    - case_bool_decide as Hv; simpl.
      + split; [by intros _ ? [= <-]|done].
      + rewrite bool_decide_eq_true.
        change (is_Some (parse_enum name enum v))
          with (enum_label_of name enum v).
        rewrite enum_label_spec. split.
        * intros (a & _ & Ha) ? [= <-] _. by exists a.
        * intros Hlabel. destruct (Hlabel v eq_refl Hv) as [a Ha].
          exists a. split; [apply Hall|done].
    - split; [by intros|done]. }
  rewrite (Hone _ status_name enumValues "status"),
    (Hone _ size_name packageSizes "packageSize"); [done|..].
  - intros []; unfold packageSizes; set_solver.
  - intros []; unfold enumValues; set_solver.
Qed.

(** C8, amended. A listing holds exactly the stored deliveries that match
    every given filter whose value is not the empty string (a filter given
    as the empty string is skipped like an absent one), newest first; the
    embedded sender is built from the public fields of the delivery's
    sender and has no [password]. The in-memory storage answers every
    filter set so. The database answers so when the [status] and
    [packageSize] filters that are given and not empty are labels of
    their enums (and it leaves [role] out of the sender); for any other
    value it refuses the query, and there is no listing. *)
Theorem listing (filters : gmap string string) :
  (∀ d, selects filters d = true ↔ satisfies_nonempty filters d)
  ∧ (∀ st : MemStorage.t,
       let result := MemStorage.getDeliveriesWithFilters filters st in
       getDeliveriesWithFilters filters st = Some result
       ∧ (dwu_delivery <$> result)
           ≡ₚ List.filter (selects filters)
                (JsMap.values (MemStorage.deliveriesData st))
       ∧ StronglySorted not_older (dwu_delivery <$> result)
       ∧ ∀ x, x ∈ result →
           dwu_sender x
           = MemStorage.userSafe
             <$> JsMap.get (senderId (dwu_delivery x)) (MemStorage.usersData st)
           ∧ ∀ o, dwu_sender x = Some o ∨ dwu_carrier x = Some o →
                  dom o = public_fields ∧ "password" ∉ dom o)
  ∧ (DatabaseStorage.conditions_accepted filters = true
     ↔ (∀ v, filters !! "status" = Some v → v ≠ "" → ∃ s, status_name s = v)
       ∧ (∀ v, filters !! "packageSize" = Some v → v ≠ "" →
               ∃ s, size_name s = v))
  ∧ (∀ st : DatabaseStorage.t,
       if DatabaseStorage.conditions_accepted filters
       then
         ∃ result,
           getDeliveriesWithFilters filters st = Some result
           ∧ (dwu_delivery <$> result)
               ≡ₚ List.filter (selects filters) (DatabaseStorage.deliveries st)
           ∧ StronglySorted not_older (dwu_delivery <$> result)
           ∧ ∀ x, x ∈ result →
               dwu_sender x
               = DatabaseStorage.userColumns
                 <$> List.find
                       (λ u, bool_decide (user_id u = senderId (dwu_delivery x)))
                       (DatabaseStorage.users st)
               ∧ ∀ o, dwu_sender x = Some o ∨ dwu_carrier x = Some o →
                      dom o ⊆ public_fields ∧ "password" ∉ dom o
       else getDeliveriesWithFilters filters st = None).
Proof.
  split; [apply selects_spec|]. split; [|split; [apply conditions_accepted_spec|]].
  - intros st result. split; [done|].
    unfold result. rewrite Mem_listing_deliveries.
    split; [apply Array_sort_perm|]. split; [apply Array_sort_newest_first|].
    intros x Hx. unfold MemStorage.getDeliveriesWithFilters in Hx.
    apply list_elem_of_fmap in Hx as (d & -> & _). cbn [dwu_sender dwu_delivery dwu_carrier].
    split; [done|]. intros o [Ho|Ho];
      apply fmap_Some in Ho as (u & _ & ->);
      rewrite dom_userSafe; split; [done|apply password_not_public| done
                                   |apply password_not_public].
  - intros st.
    change (getDeliveriesWithFilters filters st)
      with (DatabaseStorage.getDeliveriesWithFilters filters st).
    unfold DatabaseStorage.getDeliveriesWithFilters.
    destruct (DatabaseStorage.conditions_accepted filters); [|done].
    eexists. split; [reflexivity|]. rewrite DB_listing_deliveries.
    split; [apply Array_sort_perm|]. split; [apply Array_sort_newest_first|].
    intros x Hx. unfold DatabaseStorage.query_results in Hx.
    apply list_elem_of_fmap in Hx as (d & -> & _). cbn [dwu_sender dwu_delivery dwu_carrier].
    split; [done|]. intros o [Ho|Ho]; [|done].
    apply fmap_Some in Ho as (u & _ & ->).
    pose proof (dom_userColumns u) as Hdom. split; [done|].
    intros Hp. apply password_not_public. by apply Hdom.
Qed.

(** C8, as stated, fails. With the filter [status] given as the empty
    string, the listing of the seeded store holds its three deliveries,
    none of which has the empty string as status; so does the answer of the
    route to [?status=]. And with the filter [status] given as a string
    that is not a label of the enum, the database gives no listing, not
    the empty one: the route answers 500. *)
Lemma empty_filter_is_skipped :
  (let filters : gmap string string := {[ "status" := "" ]} in
   let st := MemStorage.new 0 in
   let result := MemStorage.getDeliveriesWithFilters filters st in
   delivery_id <$> (dwu_delivery <$> result) = [1; 2; 3]
   ∧ get_deliveries filters st = Json 200 result
   ∧ ∀ x, x ∈ result → ¬ satisfies_given filters (dwu_delivery x))
  ∧ (let filters : gmap string string := {[ "status" := "cancelled" ]} in
     let st := DatabaseStorage.mk [] [] [] 1 1 1 in
     getDeliveriesWithFilters filters st = None
     ∧ get_deliveries filters st = Message 500 "Failed to fetch deliveries").
Proof.
  split; [|by vm_compute].
  intros filters st result. split; [by vm_compute|]. split; [by vm_compute|].
  intros x Hx Hsat.
  specialize (Hsat "status" "").
  unfold filtered_field in Hsat. rewrite bool_decide_eq_true_2 in Hsat by done.
  assert (Some (status_name (status (dwu_delivery x))) = Some "") as [= Hname].
  { apply Hsat; [unfold filter_keys; constructor|done]. }
  by destruct (status (dwu_delivery x)).
Qed.

(** * Further properties *)

(** ** The status route *)

Lemma parse_status_spec (str : string) (s : DeliveryStatus) :
  parse_enum status_name enumValues str = Some s ↔ status_name s = str.
Proof.
  unfold parse_enum. split.
  - intros Hfind. apply find_some in Hfind as [_ Hs].
    by apply bool_decide_eq_true in Hs.
  - intros <-. by destruct s.
Qed.

Lemma body_status_spec (body : jsobject) (s : DeliveryStatus) :
  body_status body = Some s ↔ body !! "status" = Some (JStr (status_name s)).
Proof.
  unfold body_status.
  destruct (body !! "status") as [[|n|str]|]; try (split; intros; congruence).
  rewrite parse_status_spec. split; [by intros ->|congruence].
Qed.

(** X1. A body whose [status] is not the spelling of one of the four statuses
    (absent, not a string, in another case, ...) is answered 400 "Invalid
    status" before the storage is read. *)
Theorem unknown_status_is_refused {S} `{IStorage S}
    (uid id : Z) (body : jsobject) (st : S) :
  (∀ s, body !! "status" ≠ Some (JStr (status_name s))) →
  patch_delivery_status uid id body st = (st, Message 400 "Invalid status").
Proof.
  intros Hbody. unfold patch_delivery_status.
  destruct (body_status body) as [s|] eqn:Hs; [|done].
  apply body_status_spec in Hs. by destruct (Hbody s).
Qed.

Lemma unknown_status_is_refused_witness :
  let body : jsobject := {[ "status" := JStr "Delivered" ]} in
  (∀ s, body !! "status" ≠ Some (JStr (status_name s)))
  ∧ patch_delivery_status 2 1 body (MemStorage.new 0)
    = (MemStorage.new 0, Message 400 "Invalid status").
Proof.
  intros body.
  assert (∀ s, body !! "status" ≠ Some (JStr (status_name s))) as Hbody.
  { intros s. by destruct s. }
  split; [exact Hbody|]. by apply unknown_status_is_refused.
Defined.

Lemma status_rules_None_iff uid s d :
  status_rules uid s d = None
  ↔ (uid = senderId d ∨ carrierId d = Some uid)
    ∧ (s ≠ requested →
       carrierId d = Some uid ∧ predecessor s = Some (status d)).
Proof.
  split.
  - intros Hrules. split.
    + unfold status_rules in Hrules.
      destruct (decide (Some uid = carrierId d)) as [Hc|Hc]; [by right|].
      destruct (decide (uid = senderId d)) as [Hs|Hs]; [by left|].
      rewrite (bool_decide_eq_false_2 _ Hc), (bool_decide_eq_false_2 _ Hs)
        in Hrules. done.
    + intros Hs. by destruct (status_rules_pass uid s d Hrules Hs).
  - intros [Hassoc Hfwd].
    destruct (decide (s = requested)) as [->|Hs];
      [by apply status_rules_requested|].
    destruct (Hfwd Hs) as [Hc Hpre]. unfold status_rules.
    rewrite (bool_decide_eq_true_2 (Some uid = carrierId d)) by done.
    cbn [negb andb].
    destruct s; try done; simpl in Hpre; injection Hpre as Hpre;
      by rewrite bool_decide_eq_true_2.
Qed.

Lemma patch_cases {S} `{IStorage S} (uid id : Z) (s : DeliveryStatus) (st : S) :
  let '(st', response) := patch_delivery_status uid id (status_body s) st in
  (succeeds response
   ↔ ∃ d, getDeliveryById id st = Some d ∧ status_rules uid s d = None)
  ∧ (¬ succeeds response → st' = st).
Proof.
  unfold patch_delivery_status. rewrite body_status_status_body.
  destruct (getDeliveryById id st) as [d|] eqn:Hget.
  2: { split; [|done]. split; [done|]. by intros (d & ? & _). }
  destruct (status_rules uid s d) as [failure|] eqn:Hrules.
  - split; [|done]. split.
    + intros Hok. by apply status_rules_failure in Hrules.
    + intros (d' & [= <-] & Hcond). congruence.
  - destruct (updateDeliveryStatus _ _ _ _). split; [|by intros []].
    split; [intros _|done]. by exists d.
Qed.

(** X2. The status route answers 200 exactly when the delivery exists, the
    user is its sender or its carrier and, for a target other than
    [requested], the user is its carrier and the delivery is in the status
    just before the target; any other answer leaves the store as it
    was. *)
Theorem patch_outcome {S} `{IStorage S}
    (uid id : Z) (s : DeliveryStatus) (st : S) :
  let '(st', response) := patch_delivery_status uid id (status_body s) st in
  (succeeds response
   ↔ ∃ d, getDeliveryById id st = Some d
          ∧ (uid = senderId d ∨ carrierId d = Some uid)
          ∧ (s ≠ requested →
             carrierId d = Some uid ∧ predecessor s = Some (status d)))
  ∧ (¬ succeeds response → st' = st).
Proof.
  pose proof (patch_cases uid id s st) as Hcases.
  destruct (patch_delivery_status uid id (status_body s) st) as [st' response].
  destruct Hcases as [Hiff Hfail]. split; [|done]. rewrite Hiff.
  by setoid_rewrite status_rules_None_iff.
Qed.

Global Instance MemStorage_DeliveryStorage : DeliveryStorage MemStorage.t.
Proof.
  split.
  - intros id id' s c st. simpl.
    unfold MemStorage.updateDeliveryStatus, MemStorage.getDeliveryById.
    destruct (JsMap.get id (MemStorage.deliveriesData st)) as [d|] eqn:Hget;
      cbn [fst MemStorage.deliveriesData].
    + case_bool_decide as Hid.
      * subst id'. by rewrite JsMap_get_set_eq.
      * by rewrite JsMap_get_set_ne.
    + case_bool_decide as Hid; [by subst id'; rewrite Hget|done].
  - intros id s c st. simpl.
    unfold MemStorage.updateDeliveryStatus, MemStorage.getDeliveryById.
    by destruct (JsMap.get id (MemStorage.deliveriesData st)).
Qed.

Lemma DB_get_update_ne id id' s c (st : DatabaseStorage.t) :
  id' ≠ id →
  DatabaseStorage.getDeliveryById id'
    (DatabaseStorage.updateDeliveryStatus id s c st).1
  = DatabaseStorage.getDeliveryById id' st.
Proof.
  intros Hne.
  unfold DatabaseStorage.getDeliveryById, DatabaseStorage.updateDeliveryStatus.
  cbn [fst DatabaseStorage.deliveries].
  induction (DatabaseStorage.deliveries st) as [|d l IH]; [done|].
  rewrite fmap_cons. cbn [List.filter].
  destruct (decide (delivery_id d = id)) as [Hd|Hd].
  - rewrite (bool_decide_eq_true_2 _ Hd).
    unfold DatabaseStorage.set_updateValues at 1. cbn [delivery_id].
    rewrite !(bool_decide_eq_false_2 (delivery_id d = id')) by congruence.
    exact IH.
  - rewrite (bool_decide_eq_false_2 _ Hd).
    destruct (bool_decide (delivery_id d = id')); [|exact IH].
    cbn [head]. done.
Qed.

Global Instance DatabaseStorage_DeliveryStorage
  : DeliveryStorage DatabaseStorage.t.
Proof.
  split.
  - intros id id' s c st. simpl. case_bool_decide as Hid.
    + subst id'. apply DB_get_update.
    + by apply DB_get_update_ne.
  - intros id s c st.
    change ((updateDeliveryStatus id s c st).2)
      with (DatabaseStorage.getDeliveryById id
              (DatabaseStorage.updateDeliveryStatus id s c st).1).
    apply DB_get_update.
Qed.

(** The update that the route asks for, once the rules have passed, only
    changes the status: on [accepted] the carrier it writes is the carrier
    the delivery has. *)
Lemma with_status_passed uid s d :
  status_rules uid s d = None →
  MemStorage.with_status d s
    (if bool_decide (s = accepted) then Some uid else None)
  = set_status s d.
Proof.
  intros Hrules. unfold MemStorage.with_status, set_status. f_equal.
  case_bool_decide as Hs; [|done]. subst s.
  apply status_rules_pass in Hrules as [_ ->]; [|done].
  by destruct (truthy_num (Some uid)).
Qed.

Lemma patch_passed {S} `{DeliveryStorage S}
    (uid id : Z) (s : DeliveryStatus) (d : Delivery) (st : S) :
  getDeliveryById id st = Some d → status_rules uid s d = None →
  (patch_delivery_status uid id (status_body s) st).2
  = Json 200 (Some (set_status s d))
  ∧ ∀ id', getDeliveryById id'
             (patch_delivery_status uid id (status_body s) st).1
           = if bool_decide (id' = id) then Some (set_status s d)
             else getDeliveryById id' st.
Proof.
  intros Hget Hrules.
  unfold patch_delivery_status. rewrite body_status_status_body, Hget, Hrules.
  set (c := if bool_decide (s = accepted) then Some uid else None).
  pose proof (update_returns id s c st) as Hret.
  pose proof (λ id', update_read id id' s c st) as Hread.
  destruct (updateDeliveryStatus id s c st) as [st' u].
  cbn [fst snd] in Hret, Hread |- *.
  rewrite Hget in Hret, Hread. cbn in Hret, Hread.
  unfold c in Hret, Hread. rewrite with_status_passed in Hret, Hread by done.
  split; [by rewrite Hret|]. intros id'. rewrite Hread.
  by case_bool_decide.
Qed.

(** X3. A status request that is answered 200 stores the addressed delivery
    with the new status and nothing else changed, carrier included,
    answers with it, and leaves every other delivery as it was. Either
    storage. *)
Theorem patch_effect {S} `{DeliveryStorage S}
    (uid id : Z) (s : DeliveryStatus) (st : S) :
  let '(st', response) := patch_delivery_status uid id (status_body s) st in
  succeeds response →
  ∃ d, getDeliveryById id st = Some d
       ∧ response = Json 200 (Some (set_status s d))
       ∧ ∀ id', getDeliveryById id' st'
                = if bool_decide (id' = id) then Some (set_status s d)
                  else getDeliveryById id' st.
Proof.
  pose proof (patch_cases uid id s st) as Hcases.
  pose proof (λ d, patch_passed uid id s d st) as Hpassed.
  destruct (patch_delivery_status uid id (status_body s) st) as [st' response].
  intros Hok. apply Hcases in Hok as (d & Hget & Hrules).
  exists d. split; [done|]. by apply Hpassed.
Qed.

Lemma patch_effect_witness :
  let '(st', response) :=
    patch_delivery_status 2 2 (status_body picked) (MemStorage.new 0) in
  succeeds response
  ∧ ∃ d, getDeliveryById 2 (MemStorage.new 0) = Some d
         ∧ response = Json 200 (Some (set_status picked d))
         ∧ ∀ id', getDeliveryById id' st'
                  = if bool_decide (id' = 2) then Some (set_status picked d)
                    else getDeliveryById id' (MemStorage.new 0).
Proof.
  pose proof (patch_effect 2 2 picked (MemStorage.new 0)) as Heffect.
  destruct (patch_delivery_status 2 2 (status_body picked) (MemStorage.new 0))
    as [st' response] eqn:Hpatch.
  assert (succeeds response) as Hok.
  { change response with (st', response).2. rewrite <- Hpatch. by vm_compute. }
  split; [exact Hok|exact (Heffect Hok)].
Defined.

(** ** The details page and the status route *)

(** X4. Whenever the details page shows its button (the user is the carrier
    of the delivery it has fetched, which is [accepted] or [picked]), the
    request behind the button is answered 200: the delivery is stored one
    stage further, with nothing else changed. Either storage. *)
Theorem page_button_is_accepted {S} `{DeliveryStorage S}
    (uid id : Z) (d : Delivery) (q : Request) (st : S) :
  getDeliveryById id st = Some d →
  page_status_request uid id d = Some q →
  ∃ s, getNextStatus (status d) = Some s
       ∧ stage s = stage (status d) + 1
       ∧ reply q st = StatusReply (Json 200 (Some (set_status s d)))
       ∧ getDeliveryById id (handle q st) = Some (set_status s d).
Proof.
  intros Hget Hpage. unfold page_status_request in Hpage.
  destruct (getNextStatus (status d)) as [s|] eqn:Hnext; [|done].
  case_bool_decide as Hcar; [|done]. injection Hpage as <-.
  exists s. split; [done|].
  assert (stage s = stage (status d) + 1 ∧ status_rules uid s d = None)
    as [Hstage Hrules].
  { split.
    - destruct (status d) eqn:Hst; simpl in Hnext; by simplify_eq.
    - apply status_rules_None_iff. split; [by right|]. intros _.
      split; [done|].
      destruct (status d) eqn:Hst; simpl in Hnext; by simplify_eq. }
  split; [done|].
  destruct (patch_passed uid id s d st Hget Hrules) as [Hresp Hread].
  cbn [reply handle]. rewrite Hresp. split; [done|].
  rewrite Hread. by rewrite bool_decide_eq_true_2.
Qed.

Lemma page_button_is_accepted_witness :
  ∃ d q,
    getDeliveryById 2 (MemStorage.new 0) = Some d
    ∧ page_status_request 2 2 d = Some q
    ∧ ∃ s, getNextStatus (status d) = Some s
           ∧ stage s = stage (status d) + 1
           ∧ reply q (MemStorage.new 0)
             = StatusReply (Json 200 (Some (set_status s d)))
           ∧ getDeliveryById 2 (handle q (MemStorage.new 0))
             = Some (set_status s d).
Proof.
  eexists _, _. split; [vm_compute; reflexivity|].
  split; [vm_compute; reflexivity|].
  apply (page_button_is_accepted 2 2); [vm_compute; reflexivity|].
  vm_compute. reflexivity.
Defined.

(** ** Keys and ids *)

Lemma keyed_fresh {V} (id_of : V → Z) next (m : JsMap.t V) :
  keyed id_of next m → next ∉ m.*1.
Proof.
  intros [Hall _] (p & Hp & Hin)%list_elem_of_fmap.
  rewrite Forall_forall in Hall. destruct (Hall p Hin) as [_ Hlt]. lia.
Qed.

Lemma keyed_get_fresh {V} (id_of : V → Z) next (m : JsMap.t V) :
  keyed id_of next m → JsMap.get next m = None.
Proof.
  intros [Hall _]. unfold JsMap.get.
  induction Hall as [|[k v] m [_ Hk] _ IH]; [done|]. simpl in *.
  rewrite bool_decide_eq_false_2 by lia. exact IH.
Qed.

Lemma keyed_set_fresh {V} (id_of : V → Z) next (m : JsMap.t V) v :
  keyed id_of next m → id_of v = next →
  keyed id_of (next + 1) (JsMap.set next v m)
  ∧ JsMap.values (JsMap.set next v m) = (JsMap.values m ++ [v])%list.
Proof.
  intros Hkeyed Hv. pose proof (keyed_fresh _ _ _ Hkeyed) as Hfresh.
  rewrite JsMap_set_fresh by done. destruct Hkeyed as [Hall Hnd].
  split; [split|].
  - apply Forall_app. split.
    + eapply Forall_impl; [exact Hall|]. simpl. intros p [? ?]. split; [done|lia].
    + apply Forall_singleton. simpl. split; [done|lia].
  - rewrite fmap_app. apply NoDup_app. split; [done|]. split.
    + intros k Hk Hin. apply list_elem_of_singleton in Hin. by subst k.
    + apply NoDup_singleton.
  - unfold JsMap.values. by rewrite fmap_app.
Qed.

Lemma keyed_update_absent {V} (id_of : V → Z) next (m : JsMap.t V) id
    (f : V → V) :
  keyed id_of next m → JsMap.get id m = None →
  (λ x, if bool_decide (id_of x = id) then f x else x) <$> JsMap.values m
  = JsMap.values m.
Proof.
  intros [Hall _]. unfold JsMap.get, JsMap.values.
  induction Hall as [|[k v] m [Hk _] _ IH]; [done|]. simpl in *.
  rewrite Hk. case_bool_decide; [done|]. intros Hget.
  f_equal. by apply IH.
Qed.

Lemma JsMap_set_keys_present {V} (m : JsMap.t V) id v v' :
  JsMap.get id m = Some v → (JsMap.set id v' m).*1 = m.*1.
Proof.
  unfold JsMap.get. induction m as [|[k x] m IH]; [done|]. simpl.
  case_bool_decide as Hk; simpl; [by subst k|].
  intros Hget. f_equal. by apply IH.
Qed.

Lemma keyed_set_present {V} (id_of : V → Z) next (m : JsMap.t V) id v
    (f : V → V) :
  (∀ x, id_of (f x) = id_of x) →
  keyed id_of next m → JsMap.get id m = Some v →
  keyed id_of next (JsMap.set id (f v) m)
  ∧ JsMap.values (JsMap.set id (f v) m)
    = (λ x, if bool_decide (id_of x = id) then f x else x) <$> JsMap.values m.
Proof.
  intros Hf Hkeyed Hget. split; [split|].
  - destruct Hkeyed as [Hall _]. clear -Hf Hall Hget.
    unfold JsMap.get in Hget.
    induction Hall as [|[k x] m [Hk Hlt] Hall IH]; [done|]. simpl in *.
    case_bool_decide as Hid; simpl in Hget.
    + injection Hget as <-. apply Forall_cons. split; [|done]. simpl.
      split; [|lia]. rewrite Hf. congruence.
    + apply Forall_cons. split; [done|]. by apply IH.
  - rewrite (JsMap_set_keys_present m id v) by done. by destruct Hkeyed.
  - revert Hkeyed Hget. induction m as [|[k x] m IH]; [done|].
    intros [Hall Hnd] Hget.
    apply Forall_cons in Hall as [[Hk Hlt] Hall]. simpl in Hk, Hlt.
    rewrite fmap_cons in Hnd. apply NoDup_cons in Hnd as [Hkm Hnd].
    simpl in Hkm. unfold JsMap.get in Hget. simpl in Hget |- *.
    rewrite Hk.
    case_bool_decide as Hid; simpl in Hget.
    + injection Hget as <-. unfold JsMap.values at 1. rewrite fmap_cons.
      cbn [snd]. f_equal.
      symmetry. apply (keyed_update_absent id_of next); [done|].
      unfold JsMap.get.
      destruct (List.find _ m) as [[k' x']|] eqn:Hfind; [|done].
      apply find_some in Hfind as [Hin Hk'].
      apply bool_decide_eq_true in Hk'. simpl in Hk'. subst k' k.
      destruct Hkm. apply list_elem_of_fmap. exists (id, x').
      split; [done|]. by apply list_elem_of_In.
    + unfold JsMap.values at 1. rewrite fmap_cons. cbn [snd]. f_equal.
      by apply IH.
Qed.

(** The projections of a store that was just built. *)
Ltac store_simpl :=
  cbn [MemStorage.usersData MemStorage.deliveriesData MemStorage.reviewsData
       MemStorage.next_userId MemStorage.next_deliveryId
       MemStorage.next_reviewId DatabaseStorage.users
       DatabaseStorage.deliveries DatabaseStorage.reviews
       DatabaseStorage.users_id_seq DatabaseStorage.deliveries_id_seq
       DatabaseStorage.reviews_id_seq fst snd] in *.

(** ** What the routes leave alone *)

Lemma Mem_updateUserRating_next_delivery uid (st : MemStorage.t) :
  MemStorage.next_deliveryId (MemStorage.updateUserRating uid st)
  = MemStorage.next_deliveryId st.
Proof. unfold MemStorage.updateUserRating. by repeat case_match. Qed.

Lemma Mem_post_reviews_deliveries uid body now (st : MemStorage.t) :
  MemStorage.deliveriesData (post_reviews uid body now st).1
  = MemStorage.deliveriesData st
  ∧ MemStorage.next_deliveryId (post_reviews uid body now st).1
    = MemStorage.next_deliveryId st.
Proof.
  unfold post_reviews. destruct (insertReviewSchema _) as [rd|]; [|done].
  unfold submitReview.
  destruct (getDeliveryById _ st) as [x|]; [|done].
  destruct (negb (bool_decide (status x = delivered))); [done|].
  destruct (negb (bool_decide (Some uid = carrierId x))
            && negb (bool_decide (uid = senderId x))); [done|].
  destruct (negb (bool_decide (Some (ir_revieweeId rd) = _))); [done|].
  destruct (getReviewByDeliveryAndReviewer _ _ st); [done|].
  change (createReview rd now st) with (MemStorage.createReview rd now st).
  unfold MemStorage.createReview. cbn [fst snd].
  by rewrite Mem_updateUserRating_deliveries,
    Mem_updateUserRating_next_delivery.
Qed.

(** X7. In the in-memory store, a review request never changes a delivery,
    and a request that creates a delivery or changes a status never
    changes a user (ratings and review counts included) or a review. *)
Theorem routes_keep_apart (q : Request) (st : MemStorage.t) :
  match q with
  | PostReview _ _ _ =>
      MemStorage.deliveriesData (handle q st) = MemStorage.deliveriesData st
  | _ =>
      MemStorage.usersData (handle q st) = MemStorage.usersData st
      ∧ MemStorage.reviewsData (handle q st) = MemStorage.reviewsData st
  end.
Proof.
  destruct q as [uid body now|uid id body|uid body now]; cbn [handle].
  - pose proof (review_state_post_deliveries uid body now st) as Hstate.
    unfold review_state in Hstate. by simplify_eq.
  - pose proof (review_state_patch uid id body st) as Hstate.
    unfold review_state in Hstate. by simplify_eq.
  - apply Mem_post_reviews_deliveries.
Qed.

(** X6. A request that is answered with an error message leaves the store as
    it was: every check of the three writing routes comes before the
    first write. Either storage. *)
Theorem refused_request_changes_nothing {S} `{IStorage S}
    (q : Request) (st : S) :
  refused (reply q st) → handle q st = st.
Proof.
  destruct q as [uid body now|uid id body|uid body now];
    cbn [reply handle refused].
  - unfold post_deliveries. destruct (createDeliverySchema _); [|done].
    by destruct (createDelivery _ _ _).
  - unfold patch_delivery_status.
    destruct (body_status body) as [s|]; [|done].
    destruct (getDeliveryById id st) as [x|]; [|done].
    destruct (status_rules uid s x); [done|].
    by destruct (updateDeliveryStatus _ _ _ _).
  - unfold post_reviews. destruct (insertReviewSchema _) as [rd|]; [|done].
    unfold submitReview.
    destruct (getDeliveryById _ st); [|done].
    repeat (case_match; try done).
Qed.

Lemma refused_request_changes_nothing_witness :
  let q := PatchStatus 3 1 (status_body delivered) in
  refused (reply q (MemStorage.new 0))
  ∧ handle q (MemStorage.new 0) = MemStorage.new 0.
Proof.
  intros q.
  assert (refused (reply q (MemStorage.new 0))) as Hrefused by (by vm_compute).
  split; [exact Hrefused|exact (refused_request_changes_nothing q _ Hrefused)].
Defined.

(** ** The parties of a delivery *)

Lemma evolves_refl (o : option Delivery) : evolves o o.
Proof. destruct o as [[]|]; by simpl. Qed.

Lemma evolves_trans (a b c : option Delivery) :
  evolves a b → evolves b c → evolves a c.
Proof.
  destruct a as [d0|], b as [d1|], c as [d2|]; simpl; try done.
  - intros -> ->. by simpl.
  - intros Hnone ->. by simpl.
Qed.

Lemma Mem_handle_evolves (q : Request) (st : MemStorage.t) :
  Mem_deliveries_keyed st →
  Mem_deliveries_keyed (handle q st)
  ∧ ∀ id, evolves (MemStorage.getDeliveryById id st)
            (MemStorage.getDeliveryById id (handle q st)).
Proof.
  intros Hkeyed. destruct q as [uid body now|uid id0 body|uid body now];
    cbn [handle].
  - unfold post_deliveries.
    destruct (createDeliverySchema _) as [data|];
      [|split; [done|intros; apply evolves_refl]].
    change (createDelivery data now st)
      with (MemStorage.createDelivery data now st).
    unfold MemStorage.createDelivery. cbn [fst snd].
    set (new := mkDelivery _ _ _ _ _ _ _ _ _ _ _ _ _ _).
    destruct (keyed_set_fresh delivery_id _ _ new Hkeyed eq_refl) as [Hk _].
    split; [exact Hk|]. intros id. unfold MemStorage.getDeliveryById.
    store_simpl.
    destruct (decide (MemStorage.next_deliveryId st = id)) as [<-|Hne].
    + rewrite JsMap_get_set_eq, (keyed_get_fresh _ _ _ Hkeyed). done.
    + rewrite JsMap_get_set_ne by done. apply evolves_refl.
  - unfold patch_delivery_status.
    destruct (body_status body) as [s|];
      [|split; [done|intros; apply evolves_refl]].
    change (getDeliveryById id0 st) with (MemStorage.getDeliveryById id0 st).
    destruct (MemStorage.getDeliveryById id0 st) as [x|] eqn:Hx;
      [|split; [done|intros; apply evolves_refl]].
    destruct (status_rules uid s x) eqn:Hrules;
      [split; [done|intros; apply evolves_refl]|].
    set (c := if bool_decide (s = accepted) then Some uid else None).
    change (updateDeliveryStatus id0 s c st)
      with (MemStorage.updateDeliveryStatus id0 s c st).
    unfold MemStorage.updateDeliveryStatus.
    unfold MemStorage.getDeliveryById in Hx. rewrite Hx. cbn [fst snd].
    unfold c. rewrite with_status_passed by done.
    destruct (keyed_set_present delivery_id _ _ id0 x (set_status s)
                (λ _, eq_refl) Hkeyed Hx) as [Hk _].
    split; [exact Hk|]. intros id. unfold MemStorage.getDeliveryById.
    store_simpl.
    destruct (decide (id0 = id)) as [<-|Hne].
    + rewrite JsMap_get_set_eq, Hx. done.
    + rewrite JsMap_get_set_ne by done. apply evolves_refl.
  - destruct (Mem_post_reviews_deliveries uid body now st) as [Hdata Hnext].
    unfold Mem_deliveries_keyed, MemStorage.getDeliveryById.
    rewrite Hdata, Hnext. split; [done|intros; apply evolves_refl].
Qed.

Lemma Mem_run_evolves (qs : list Request) :
  ∀ st, Mem_deliveries_keyed st →
  ∀ id, evolves (MemStorage.getDeliveryById id st)
          (MemStorage.getDeliveryById id (run qs st)).
Proof.
  induction qs as [|q qs IH]; intros st Hkeyed id; [apply evolves_refl|].
  destruct (Mem_handle_evolves q st Hkeyed) as [Hnext Hstep].
  eapply evolves_trans; [apply Hstep|]. by apply IH.
Qed.

(** X8. No sequence of requests to the writing routes, served by the
    in-memory store, removes a delivery or changes anything of a stored
    delivery but its status: sender, carrier, locations, package, dates
    and fee stay as they were. A delivery created on the way never gets a
    carrier: the status route hands [carrierId] to the store only on a
    request that it accepts from the user who is the carrier already. *)
Theorem deliveries_keep_their_parties (qs : list Request)
    (st : MemStorage.t) (id : Z) :
  Mem_deliveries_keyed st →
  match MemStorage.getDeliveryById id st,
        MemStorage.getDeliveryById id (run qs st) with
  | Some d0, Some d => d = set_status (status d) d0
  | Some _, None => False
  | None, Some d => carrierId d = None
  | None, None => True
  end.
Proof. intros Hkeyed. by apply (Mem_run_evolves qs st Hkeyed id). Qed.

Lemma Mem_new_keyed (now : Z) : Mem_deliveries_keyed (MemStorage.new now).
Proof.
  unfold Mem_deliveries_keyed, keyed. split.
  - apply (bool_decide_unpack _). by vm_compute.
  - apply (bool_decide_unpack _). by vm_compute.
Qed.

Lemma deliveries_keep_their_parties_witness :
  let qs :=
    [PatchStatus 2 2 (status_body picked);
     PatchStatus 3 2 (status_body requested);
     PatchStatus 1 3 (status_body accepted)] in
  Mem_deliveries_keyed (MemStorage.new 0)
  ∧ match MemStorage.getDeliveryById 2 (MemStorage.new 0),
          MemStorage.getDeliveryById 2 (run qs (MemStorage.new 0)) with
    | Some d0, Some d => d = set_status (status d) d0
    | Some _, None => False
    | None, Some d => carrierId d = None
    | None, None => True
    end.
Proof.
  intros qs. split; [apply Mem_new_keyed|].
  apply (deliveries_keep_their_parties qs (MemStorage.new 0) 2),
    Mem_new_keyed.
Defined.

(** ** Creation, then reading *)

Lemma zod_number_Some (o : jsobject) k n :
  zod_number o k = Some n ↔ o !! k = Some (JNum n).
Proof.
  unfold zod_number. destruct (o !! k) as [[]|]; split; intros; by simplify_eq.
Qed.

Lemma zod_string_Some (o : jsobject) k s :
  zod_string o k = Some s ↔ o !! k = Some (JStr s).
Proof.
  unfold zod_string. destruct (o !! k) as [[]|]; split; intros; by simplify_eq.
Qed.

Lemma zod_string_min1_Some (o : jsobject) k s :
  zod_string_min1 o k = Some s ↔ o !! k = Some (JStr s) ∧ s ≠ "".
Proof.
  unfold zod_string_min1. rewrite bind_Some. split.
  - intros (s' & Hs%zod_string_Some & Hmin). case_bool_decide; by simplify_eq.
  - intros [Hs%zod_string_Some Hne]. exists s. split; [done|].
    by rewrite bool_decide_eq_false_2.
Qed.

Lemma zod_number_min1_Some (o : jsobject) k n :
  zod_number_min1 o k = Some n ↔ o !! k = Some (JNum n) ∧ 1 ≤ n.
Proof.
  unfold zod_number_min1. rewrite bind_Some. split.
  - intros (n' & Hn%zod_number_Some & Hmin). case_bool_decide; by simplify_eq.
  - intros [Hn%zod_number_Some Hle]. exists n. split; [done|].
    by rewrite bool_decide_eq_true_2.
Qed.

Lemma createDeliverySchema_Some (o : jsobject) (data : InsertDelivery) :
  createDeliverySchema o = Some data →
  o !! "senderId" = Some (JNum (id_senderId data))
  ∧ (o !! "pickupLocation" = Some (JStr (id_pickupLocation data))
     ∧ id_pickupLocation data ≠ "")
  ∧ (o !! "dropLocation" = Some (JStr (id_dropLocation data))
     ∧ id_dropLocation data ≠ "")
  ∧ o !! "packageSize" = Some (JStr (size_name (id_packageSize data)))
  ∧ (o !! "packageWeight" = Some (JNum (id_packageWeight data))
     ∧ 1 ≤ id_packageWeight data)
  ∧ o !! "preferredDeliveryDate"
    = Some (JStr (id_preferredDeliveryDate data))
  ∧ o !! "preferredDeliveryTime"
    = Some (JStr (id_preferredDeliveryTime data))
  ∧ (o !! "deliveryFee" = Some (JNum (id_deliveryFee data))
     ∧ 1 ≤ id_deliveryFee data).
Proof.
  unfold createDeliverySchema. intros Hparse.
  apply bind_Some in Hparse as (sid & Hsid%zod_number_Some & Hparse).
  apply bind_Some in Hparse as (pickup & Hpickup%zod_string_min1_Some & Hparse).
  apply bind_Some in Hparse as (drop & Hdrop%zod_string_min1_Some & Hparse).
  apply bind_Some in Hparse as (size & Hsize & Hparse).
  apply bind_Some in Hparse as (weight & Hweight%zod_number_min1_Some & Hparse).
  apply bind_Some in Hparse as (descr & _ & Hparse).
  apply bind_Some in Hparse as (instr & _ & Hparse).
  apply bind_Some in Hparse as (date & Hdate%zod_string_Some & Hparse).
  apply bind_Some in Hparse as (time & Htime%zod_string_Some & Hparse).
  apply bind_Some in Hparse as (fee & Hfee%zod_number_min1_Some & Hparse).
  injection Hparse as <-. cbn.
  unfold zod_packageSize in Hsize.
  apply bind_Some in Hsize as (str & Hstr%zod_string_Some & Hsize).
  unfold parse_enum in Hsize. apply find_some in Hsize as [_ Heq].
  apply bool_decide_eq_true in Heq. subst str.
  by destruct Hpickup, Hdrop, Hweight, Hfee.
Qed.

Lemma Mem_sender_listing (uid : Z) (st : MemStorage.t) :
  dwu_delivery <$> MemStorageRest.getSenderDeliveries uid st
  = Array_sort newest_first
      (List.filter (λ d, bool_decide (senderId d = uid))
         (JsMap.values (MemStorage.deliveriesData st))).
Proof.
  unfold MemStorageRest.getSenderDeliveries. cbv zeta.
  by rewrite fmap_dwu_delivery.
Qed.

Lemma Mem_carrier_listing (uid : Z) (st : MemStorage.t) :
  dwu_delivery <$> MemStorageRest.getCarrierDeliveries uid st
  = Array_sort newest_first
      (List.filter (λ d, bool_decide (carrierId d = Some uid))
         (JsMap.values (MemStorage.deliveriesData st))).
Proof.
  unfold MemStorageRest.getCarrierDeliveries. cbv zeta.
  by rewrite fmap_dwu_delivery.
Qed.

Lemma elem_of_Array_sort_filter {A} (cmp : A → A → Z) (p : A → bool)
    (l : list A) (x : A) :
  x ∈ Array_sort cmp (List.filter p l) ↔ p x = true ∧ x ∈ l.
Proof.
  rewrite (Array_sort_perm cmp (List.filter p l)).
  rewrite !list_elem_of_In, filter_In. tauto.
Qed.

Lemma Mem_listed (query : gmap string string) (st : MemStorage.t) d :
  query = ∅ ∨ query = {[ "status" := "requested" ]} →
  status d = requested →
  d ∈ JsMap.values (MemStorage.deliveriesData st) →
  ∃ l, get_deliveries query st = Json 200 l ∧ d ∈ dwu_delivery <$> l.
Proof.
  intros Hquery Hstatus Hin. eexists. split; [reflexivity|].
  rewrite Mem_listing_deliveries, elem_of_Array_sort_filter.
  split; [|done]. unfold selects, eq_status. rewrite Hstatus.
  by destruct Hquery as [-> | ->].
Qed.

(** X9. A delivery that POST /api/deliveries answers with 201 belongs to the
    caller, whatever [senderId] the body names, holds the body's
    locations, weight and fee, which are not empty and at least 1, and
    can be read back at once: GET /api/deliveries/:id answers it, and it
    is in the caller's list of sent deliveries, in the public list and in
    the public list of [requested] deliveries. In-memory store. *)
Theorem created_delivery_is_listed (uid : Z) (body : jsobject) (now : Z)
    (st st' : MemStorage.t) (d : Delivery) :
  post_deliveries uid body now st = (st', Json 201 d) →
  senderId d = uid ∧ delivery_createdAt d = now ∧ valid_delivery d
  ∧ body !! "pickupLocation" = Some (JStr (pickupLocation d))
  ∧ body !! "dropLocation" = Some (JStr (dropLocation d))
  ∧ body !! "packageWeight" = Some (JNum (packageWeight d))
  ∧ body !! "deliveryFee" = Some (JNum (deliveryFee d))
  ∧ get_delivery (delivery_id d) st' = Json 200 d
  ∧ (∃ l, get_user_deliveries_sender uid st' = Json 200 l
          ∧ d ∈ dwu_delivery <$> l)
  ∧ (∃ l, get_deliveries ∅ st' = Json 200 l ∧ d ∈ dwu_delivery <$> l)
  ∧ (∃ l, get_deliveries {[ "status" := "requested" ]} st' = Json 200 l
          ∧ d ∈ dwu_delivery <$> l).
Proof.
  unfold post_deliveries.
  destruct (createDeliverySchema _) as [data|] eqn:Hparse; [|done].
  change (createDelivery data now st)
    with (MemStorage.createDelivery data now st).
  unfold MemStorage.createDelivery. cbn [fst snd]. intros [= <- <-].
  apply createDeliverySchema_Some in Hparse
    as (Hsid & [Hpick ?] & [Hdrop ?] & _ & [Hweight ?] & _ & _ & [Hfee ?]).
  rewrite lookup_insert_eq in Hsid. injection Hsid as Hsid.
  rewrite lookup_insert_ne in Hpick, Hdrop, Hweight, Hfee by done.
  set (new := mkDelivery _ _ _ _ _ _ _ _ _ _ _ _ _ _).
  assert (new ∈ JsMap.values
                  (JsMap.set (MemStorage.next_deliveryId st) new
                     (MemStorage.deliveriesData st))) as Hin
    by apply JsMap_values_set_new.
  split_and!; try done.
  - unfold get_delivery.
    change (getDeliveryById ?i ?s) with (MemStorage.getDeliveryById i s).
    unfold MemStorage.getDeliveryById. store_simpl.
    by rewrite JsMap_get_set_eq.
  - eexists. split; [reflexivity|].
    change (getSenderDeliveries ?u ?s)
      with (MemStorageRest.getSenderDeliveries u s).
    rewrite Mem_sender_listing, elem_of_Array_sort_filter.
    split; [by apply bool_decide_eq_true|done].
  - apply Mem_listed; [by left|done|done].
  - apply Mem_listed; [by right|done|done].
Qed.

Lemma created_delivery_is_listed_witness :
  let body : jsobject :=
    <["senderId" := JNum 3]>
    (<["pickupLocation" := JStr "Pune"]>
    (<["dropLocation" := JStr "Mumbai"]>
    (<["packageSize" := JStr "small"]>
    (<["packageWeight" := JNum 500]>
    (<["preferredDeliveryDate" := JStr "2024-01-01"]>
    (<["preferredDeliveryTime" := JStr "10:00"]>
    (<["deliveryFee" := JNum 100]> ∅))))))) in
  ∃ st' d,
    post_deliveries 1 body 7 (MemStorage.new 0) = (st', Json 201 d)
    ∧ senderId d = 1 ∧ delivery_createdAt d = 7 ∧ valid_delivery d
    ∧ body !! "pickupLocation" = Some (JStr (pickupLocation d))
    ∧ body !! "dropLocation" = Some (JStr (dropLocation d))
    ∧ body !! "packageWeight" = Some (JNum (packageWeight d))
    ∧ body !! "deliveryFee" = Some (JNum (deliveryFee d))
    ∧ get_delivery (delivery_id d) st' = Json 200 d
    ∧ (∃ l, get_user_deliveries_sender 1 st' = Json 200 l
            ∧ d ∈ dwu_delivery <$> l)
    ∧ (∃ l, get_deliveries ∅ st' = Json 200 l ∧ d ∈ dwu_delivery <$> l)
    ∧ (∃ l, get_deliveries {[ "status" := "requested" ]} st' = Json 200 l
            ∧ d ∈ dwu_delivery <$> l).
Proof.
  intros body.
  assert (∃ st' d,
            post_deliveries 1 body 7 (MemStorage.new 0) = (st', Json 201 d))
    as (st' & d & Hpost).
  { eexists _, _. vm_compute. reflexivity. }
  exists st', d. split; [exact Hpost|].
  exact (created_delivery_is_listed 1 body 7 _ st' d Hpost).
Defined.

(** ** The lists of a user *)

Lemma sort_insert_by_key {A} (key : A → Z) x l :
  StronglySorted (λ a b, key b ≤ key a) l →
  StronglySorted (λ a b, key b ≤ key a)
    (sort_insert (λ a b, key b - key a) x l).
Proof.
  induction 1 as [|y l Hl IH Hy]; simpl.
  - repeat constructor.
  - destruct (Z.leb_spec (key y - key x) 0) as [Hle|Hgt].
    + constructor; [by constructor|].
      constructor; [lia|].
      eapply Forall_impl; [exact Hy|]. simpl. intros; lia.
    + constructor; [done|].
      rewrite sort_insert_perm. constructor; [lia|done].
Qed.

Lemma Array_sort_by_key {A} (key : A → Z) l :
  StronglySorted (λ a b, key b ≤ key a)
    (Array_sort (λ a b, key b - key a) l).
Proof.
  induction l as [|x l IH]; simpl; [constructor|].
  by apply sort_insert_by_key.
Qed.

Lemma fmap_rwr_review (f : Review → option jsobject) (l : list Review) :
  rwr_review <$> ((λ r, mkReviewWithReviewer r (f r)) <$> l) = l.
Proof. induction l as [|r l IH]; csimpl; congruence. Qed.

Lemma Mem_review_listing (uid : Z) (st : MemStorage.t) :
  rwr_review <$> MemStorageRest.getUserReviews uid st
  = Array_sort newest_review_first (Mem_received uid st).
Proof.
  unfold MemStorageRest.getUserReviews. cbv zeta.
  by rewrite fmap_rwr_review.
Qed.

Lemma DB_review_listing (uid : Z) (st : DatabaseStorage.t) :
  rwr_review <$> DatabaseStorageRest.getUserReviews uid st
  = Array_sort newest_review_first
      (List.filter (λ r, bool_decide (revieweeId r = uid))
         (DatabaseStorage.reviews st)).
Proof.
  unfold DatabaseStorageRest.getUserReviews. cbv zeta.
  by rewrite fmap_rwr_review.
Qed.

Lemma dom_reviewerSafe (u : User) : dom (reviewerSafe u) = reviewer_fields.
Proof.
  unfold reviewerSafe, reviewer_fields.
  rewrite !dom_insert_L, dom_empty_L. set_solver.
Qed.

(** X13. The review list of a user holds exactly the stored reviews whose
    reviewee is the user, each once, newest first; the reviewer embedded
    in a review is the stored user of its [reviewerId] cut down to [id],
    [username] and [fullName]. Both storages. *)
Theorem user_reviews_listing (uid : Z) :
  (∀ st : MemStorage.t,
     let result := getUserReviews uid st in
     (rwr_review <$> result)
       ≡ₚ List.filter (λ r, bool_decide (revieweeId r = uid))
            (JsMap.values (MemStorage.reviewsData st))
     ∧ StronglySorted not_older_review (rwr_review <$> result)
     ∧ ∀ x, x ∈ result →
         rwr_reviewer x
         = reviewerSafe
           <$> JsMap.get (reviewerId (rwr_review x)) (MemStorage.usersData st)
         ∧ ∀ o, rwr_reviewer x = Some o → dom o = reviewer_fields)
  ∧ (∀ st : DatabaseStorage.t,
       let result := getUserReviews uid st in
       (rwr_review <$> result)
         ≡ₚ List.filter (λ r, bool_decide (revieweeId r = uid))
              (DatabaseStorage.reviews st)
       ∧ StronglySorted not_older_review (rwr_review <$> result)
       ∧ ∀ x, x ∈ result →
           rwr_reviewer x
           = reviewerSafe
             <$> List.find (λ u, bool_decide (user_id u = reviewerId (rwr_review x)))
                   (DatabaseStorage.users st)
           ∧ ∀ o, rwr_reviewer x = Some o → dom o = reviewer_fields).
Proof.
  split; intros st result; subst result.
  - change (getUserReviews uid st)
      with (MemStorageRest.getUserReviews uid st).
    rewrite Mem_review_listing. split; [apply Array_sort_perm|].
    split; [apply (Array_sort_by_key review_createdAt)|].
    intros x (r & -> & _)%list_elem_of_fmap. cbn. split; [done|].
    intros o (u & _ & ->)%fmap_Some. apply dom_reviewerSafe.
  - change (getUserReviews uid st)
      with (DatabaseStorageRest.getUserReviews uid st).
    rewrite DB_review_listing. split; [apply Array_sort_perm|].
    split; [apply (Array_sort_by_key review_createdAt)|].
    intros x (r & -> & _)%list_elem_of_fmap. cbn. split; [done|].
    intros o (u & _ & ->)%fmap_Some. apply dom_reviewerSafe.
Qed.

Lemma zod_string_opt_Some (o : jsobject) k c :
  zod_string_opt o k = Some c →
  match c with
  | Some s => o !! k = Some (JStr s)
  | None => o !! k = None ∨ o !! k = Some JNull
  end.
Proof.
  unfold zod_string_opt.
  destruct (o !! k) as [[]|]; intros; simplify_eq; auto.
Qed.

Lemma insertReviewSchema_Some (o : jsobject) (rd : InsertReview) :
  insertReviewSchema o = Some rd →
  o !! "deliveryId" = Some (JNum (ir_deliveryId rd))
  ∧ o !! "reviewerId" = Some (JNum (ir_reviewerId rd))
  ∧ o !! "revieweeId" = Some (JNum (ir_revieweeId rd))
  ∧ o !! "rating" = Some (JNum (ir_rating rd)).
Proof.
  unfold insertReviewSchema. intros Hparse.
  apply bind_Some in Hparse as (did & Hdid%zod_number_Some & Hparse).
  apply bind_Some in Hparse as (rid & Hrid%zod_number_Some & Hparse).
  apply bind_Some in Hparse as (eid & Heid%zod_number_Some & Hparse).
  apply bind_Some in Hparse as (r & Hr%zod_number_Some & Hparse).
  apply bind_Some in Hparse as (c & _ & Hparse).
  by injection Hparse as <-.
Qed.

Lemma post_reviews_created {S} `{IStorage S} uid body now (st st' : S) r :
  post_reviews uid body now st = (st', Json 201 r) →
  ∃ rd, insertReviewSchema (<["reviewerId" := JNum uid]> body) = Some rd
        ∧ createReview rd now st = (st', r).
Proof.
  unfold post_reviews. destruct (insertReviewSchema _) as [rd|]; [|done].
  intros Hsubmit. exists rd. split; [done|]. unfold submitReview in Hsubmit.
  destruct (getDeliveryById _ st) as [x|]; [|done].
  destruct (negb (bool_decide (status x = delivered))); [done|].
  destruct (negb (bool_decide (Some uid = carrierId x))
            && negb (bool_decide (uid = senderId x))); [done|].
  destruct (negb (bool_decide (Some (ir_revieweeId rd) = _))); [done|].
  destruct (getReviewByDeliveryAndReviewer _ _ st); [done|].
  destruct (createReview rd now st) as [st1 r1]. by simplify_eq.
Qed.

(** X12. A review that POST /api/reviews answers with 201 is written by the
    caller, whatever [reviewerId] the body names, carries the body's
    delivery, reviewee and rating, and is at once in the review list of
    its reviewee. In-memory store. *)
Theorem accepted_review_is_listed (uid : Z) (body : jsobject) (now : Z)
    (st st' : MemStorage.t) (r : Review) :
  post_reviews uid body now st = (st', Json 201 r) →
  reviewerId r = uid ∧ review_createdAt r = now
  ∧ body !! "deliveryId" = Some (JNum (deliveryId r))
  ∧ body !! "revieweeId" = Some (JNum (revieweeId r))
  ∧ body !! "rating" = Some (JNum (rating r))
  ∧ ∃ l, get_user_reviews (revieweeId r) st' = Json 200 l
         ∧ r ∈ rwr_review <$> l.
Proof.
  intros (rd & Hparse & Hcreate)%post_reviews_created.
  apply insertReviewSchema_Some in Hparse as (Hdid & Hrid & Heid & Hr).
  rewrite lookup_insert_eq in Hrid. injection Hrid as Hrid.
  rewrite lookup_insert_ne in Hdid, Heid, Hr by done.
  change (createReview rd now st) with (MemStorage.createReview rd now st)
    in Hcreate.
  pose proof (Mem_createReview_reviews rd now st) as Hstored.
  rewrite Hcreate in Hstored. cbn [fst] in Hstored.
  unfold MemStorage.createReview in Hcreate. injection Hcreate as _ <-.
  cbn [reviewerId review_createdAt deliveryId revieweeId rating].
  split_and!; try done.
  eexists. split; [reflexivity|].
  change (getUserReviews ?u ?s) with (MemStorageRest.getUserReviews u s).
  rewrite Mem_review_listing. unfold Mem_received, Mem_reviews.
  rewrite elem_of_Array_sort_filter, Hstored.
  split; [by apply bool_decide_eq_true|apply JsMap_values_set_new].
Qed.

Lemma accepted_review_is_listed_witness :
  let st := run [PatchStatus 2 1 (status_body delivered)] (MemStorage.new 0) in
  let body := <["reviewerId" := JNum 3]> (review_body 1 1 4 None) in
  ∃ st' r,
    post_reviews 2 body 7 st = (st', Json 201 r)
    ∧ reviewerId r = 2 ∧ review_createdAt r = 7
    ∧ body !! "deliveryId" = Some (JNum (deliveryId r))
    ∧ body !! "revieweeId" = Some (JNum (revieweeId r))
    ∧ body !! "rating" = Some (JNum (rating r))
    ∧ ∃ l, get_user_reviews (revieweeId r) st' = Json 200 l
           ∧ r ∈ rwr_review <$> l.
Proof.
  intros st body.
  assert (∃ st' r, post_reviews 2 body 7 st = (st', Json 201 r))
    as (st' & r & Hpost).
  { eexists _, _. vm_compute. reflexivity. }
  exists st', r. split; [exact Hpost|].
  exact (accepted_review_is_listed 2 body 7 st st' r Hpost).
Defined.

(** ** The profile and the review list *)

Lemma counts_consistent_state st st' :
  review_state st' = review_state st →
  counts_consistent st → counts_consistent st'.
Proof.
  unfold review_state, counts_consistent, Mem_received, Mem_reviews.
  by intros [= -> -> _].
Qed.

Lemma Mem_createReview_counts rd now (st : MemStorage.t) :
  Mem_fresh_reviewId st → counts_consistent st →
  counts_consistent (MemStorage.createReview rd now st).1.
Proof.
  intros Hfresh Hcons uid u Hget.
  pose proof (Mem_createReview_appends rd now st Hfresh) as Happ.
  set (new := mkReview _ _ _ _ _ _ _) in Happ.
  set (st1 := MemStorage.mk (MemStorage.usersData st)
                (MemStorage.deliveriesData st)
                (JsMap.set (MemStorage.next_reviewId st) new
                   (MemStorage.reviewsData st))
                (MemStorage.next_userId st) (MemStorage.next_deliveryId st)
                (MemStorage.next_reviewId st + 1)).
  change (MemStorage.createReview rd now st).1
    with (MemStorage.updateUserRating (ir_revieweeId rd) st1) in *.
  assert (Mem_reviews st1 = Mem_reviews st ++ [new])%list as Hst1.
  { rewrite <- Happ. unfold Mem_reviews.
    by rewrite Mem_updateUserRating_reviews. }
  assert (∀ k, Mem_received k (MemStorage.updateUserRating (ir_revieweeId rd) st1)
               = Mem_received k st1) as Hrec.
  { intros k. unfold Mem_received, Mem_reviews.
    by rewrite Mem_updateUserRating_reviews. }
  rewrite Hrec.
  destruct (decide (ir_revieweeId rd = uid)) as [<-|Hne].
  - destruct (JsMap.get (ir_revieweeId rd) (MemStorage.usersData st1))
      as [u0|] eqn:Hget0.
    + destruct (Mem_updateUserRating_self _ _ _ Hget0) as (u' & Hget' & _ & Ht).
      { unfold Mem_received. rewrite Hst1, List.filter_app. simpl.
        rewrite bool_decide_eq_true_2 by done.
        by destruct (List.filter _ (Mem_reviews st)). }
      rewrite Hget in Hget'. rewrite length_fmap in Ht. by simplify_eq.
    + rewrite Mem_updateUserRating_absent in Hget by done. congruence.
  - rewrite Mem_updateUserRating_other in Hget by done.
    assert (Mem_received uid st1 = Mem_received uid st) as ->.
    { unfold Mem_received. rewrite Hst1, List.filter_app. simpl.
      rewrite bool_decide_eq_false_2 by done. apply app_nil_r. }
    by apply Hcons.
Qed.

Lemma Mem_handle_counts (q : Request) (st : MemStorage.t) :
  Mem_fresh_reviewId st → counts_consistent st →
  counts_consistent (handle q st).
Proof.
  intros Hfresh Hcons.
  destruct q as [uid body now|uid id body|uid body now]; cbn [handle].
  - pose proof (review_state_post_deliveries uid body now st).
    eauto using counts_consistent_state.
  - pose proof (review_state_patch uid id body st).
    eauto using counts_consistent_state.
  - unfold post_reviews. destruct (insertReviewSchema _) as [rd|]; [|done].
    destruct (submitReview_result st uid rd now)
      as [[_ ->]|(code & message & ->)]; [|done].
    by apply Mem_createReview_counts.
Qed.

Lemma Mem_run_counts (qs : list Request) (st : MemStorage.t) :
  Mem_fresh_reviewId st → rating_consistent st → counts_consistent st →
  counts_consistent (run qs st).
Proof.
  revert st. induction qs as [|q qs IH]; intros st Hfresh Hcons Hcounts;
    [done|].
  destruct (Mem_handle_consistent q st Hfresh Hcons).
  apply IH; [done|done|]. by apply Mem_handle_counts.
Qed.

Lemma Mem_new_counts (now : Z) : counts_consistent (MemStorage.new now).
Proof.
  intros uid u. vm_compute MemStorage.new. unfold JsMap.get. simpl.
  repeat case_bool_decide; simpl; intros [= <-]; subst uid; by vm_compute.
Qed.

Lemma Mem_profile_fields (u : User) :
  let profile := delete "password" (user_object u) in
  profile !! "totalReviews" = Some (js_opt_num (totalReviews u))
  ∧ profile !! "rating" = Some (js_opt_num (user_rating u))
  ∧ profile !! "id" = Some (JNum (user_id u))
  ∧ dom profile = public_fields.
Proof.
  cbv zeta. split_and!; [done|done|done|].
  unfold user_object, public_fields.
  rewrite dom_delete_L, !dom_insert_L, dom_empty_L. set_solver.
Qed.

Lemma mean_perm (l l' : list Z) : l ≡ₚ l' → mean l = mean l'.
Proof.
  intros Hperm. unfold mean.
  assert (foldr Z.add 0 l = foldr Z.add 0 l') as ->.
  { induction Hperm; simpl; lia. }
  by rewrite (Permutation_length Hperm).
Qed.

(** X15. At any moment of an in-memory store that started from the seed and
    served requests, the public profile of a user and the user's review
    list agree: the profile's [totalReviews] is the length of the list
    and, unless the list is empty, its [rating] is [Math.round] of the
    mean of the listed ratings. The profile has the six public fields and
    no [password]. *)
Theorem profile_agrees_with_review_list (qs : list Request) (now uid : Z)
    (profile : jsobject) :
  let st := run qs (MemStorage.new now) in
  get_user_profile uid st = Json 200 profile →
  ∃ l, get_user_reviews uid st = Json 200 l
       ∧ profile !! "totalReviews" = Some (JNum (Z.of_nat (length l)))
       ∧ (l ≠ [] →
          profile !! "rating"
          = Some (JNum (Math_round (mean (rating <$> (rwr_review <$> l))))))
       ∧ dom profile = public_fields ∧ "password" ∉ dom profile.
Proof.
  intros st.
  destruct (Mem_new_consistent now) as [Hfresh0 Hcons0].
  destruct (Mem_run_consistent qs _ Hfresh0 Hcons0) as [_ Hcons].
  pose proof (Mem_run_counts qs _ Hfresh0 Hcons0 (Mem_new_counts now))
    as Hcounts.
  fold st in Hcons, Hcounts.
  unfold get_user_profile.
  change (getUserProfile uid st) with (MemStorageRest.getUserProfile uid st).
  unfold MemStorageRest.getUserProfile.
  destruct (JsMap.get uid (MemStorage.usersData st)) as [u|] eqn:Hget; [|done].
  intros [= <-]. eexists. split; [reflexivity|].
  change (getUserReviews uid st) with (MemStorageRest.getUserReviews uid st).
  destruct (Mem_profile_fields u) as (Htotal & Hrating & _ & Hdom).
  pose proof (Mem_review_listing uid st) as Hlist.
  pose proof (Array_sort_perm newest_review_first (Mem_received uid st))
    as Hperm.
  rewrite <- Hlist in Hperm.
  assert (length (MemStorageRest.getUserReviews uid st)
          = length (Mem_received uid st)) as Hlen.
  { by rewrite <- (Permutation_length Hperm), length_fmap. }
  split_and!.
  - rewrite Htotal, Hlen, (Hcounts uid u Hget). done.
  - intros Hne. rewrite Hrating.
    rewrite (mean_perm _ (rating <$> Mem_received uid st))
      by (by apply fmap_Permutation).
    destruct (Hcons uid u Hget) as [-> _]; [|done].
    intros Hnil%fmap_nil_inv. apply Hne.
    apply length_zero_iff_nil. rewrite Hlen, Hnil. done.
  - done.
  - rewrite Hdom. apply password_not_public.
Qed.

Lemma profile_agrees_with_review_list_witness :
  let qs :=
    [PatchStatus 2 1 (status_body delivered);
     PostReview 2 (review_body 1 1 4 None) 7] in
  let st := run qs (MemStorage.new 0) in
  ∃ profile,
    get_user_profile 1 st = Json 200 profile
    ∧ ∃ l, get_user_reviews 1 st = Json 200 l
           ∧ profile !! "totalReviews" = Some (JNum (Z.of_nat (length l)))
           ∧ (l ≠ [] →
              profile !! "rating"
              = Some (JNum (Math_round
                              (mean (rating <$> (rwr_review <$> l))))))
           ∧ dom profile = public_fields ∧ "password" ∉ dom profile.
Proof.
  intros qs st.
  assert (∃ profile, get_user_profile 1 st = Json 200 profile)
    as [profile Hprofile].
  { eexists. vm_compute. reflexivity. }
  exists profile. split; [exact Hprofile|].
  exact (profile_agrees_with_review_list qs 0 1 profile Hprofile).
Defined.

(** ** The deliveries of a user *)

Lemma DB_sender_listing (uid : Z) (st : DatabaseStorage.t) :
  dwu_delivery <$> DatabaseStorageRest.getSenderDeliveries uid st
  = Array_sort newest_first
      (List.filter (λ d, bool_decide (senderId d = uid))
         (DatabaseStorage.deliveries st)).
Proof.
  unfold DatabaseStorageRest.getSenderDeliveries. cbv zeta.
  by rewrite fmap_dwu_delivery.
Qed.

Lemma DB_carrier_listing (uid : Z) (st : DatabaseStorage.t) :
  dwu_delivery <$> DatabaseStorageRest.getCarrierDeliveries uid st
  = Array_sort newest_first
      (List.filter (λ d, bool_decide (carrierId d = Some uid))
         (DatabaseStorage.deliveries st)).
Proof.
  unfold DatabaseStorageRest.getCarrierDeliveries. cbv zeta.
  by rewrite fmap_dwu_delivery.
Qed.

Lemma password_not_in_public (o : jsobject) :
  dom o ⊆ public_fields → "password" ∉ dom o.
Proof. intros Hsub Hin. by apply password_not_public, Hsub. Qed.

Lemma dom_id_object (uid : Z) :
  dom ({[ "id" := JNum uid ]} : jsobject) ⊆ public_fields.
Proof. rewrite dom_singleton_L. unfold public_fields. set_solver. Qed.

(** X10. The list of sent deliveries of a user holds exactly the stored
    deliveries whose sender is the user, and the list of carried
    deliveries exactly those whose carrier is the user, each once, newest
    first; no sender or carrier object embedded in them has a field
    outside the public ones, so none has a [password]. Both storages. *)
Theorem own_deliveries_listing (uid : Z) :
  (∀ st : MemStorage.t,
     let sent := getSenderDeliveries uid st in
     let carried := getCarrierDeliveries uid st in
     (dwu_delivery <$> sent)
       ≡ₚ List.filter (λ d, bool_decide (senderId d = uid))
            (JsMap.values (MemStorage.deliveriesData st))
     ∧ (dwu_delivery <$> carried)
         ≡ₚ List.filter (λ d, bool_decide (carrierId d = Some uid))
              (JsMap.values (MemStorage.deliveriesData st))
     ∧ StronglySorted not_older (dwu_delivery <$> sent)
     ∧ StronglySorted not_older (dwu_delivery <$> carried)
     ∧ ∀ x o, x ∈ sent ∨ x ∈ carried →
         dwu_sender x = Some o ∨ dwu_carrier x = Some o →
         dom o ⊆ public_fields ∧ "password" ∉ dom o)
  ∧ (∀ st : DatabaseStorage.t,
       let sent := getSenderDeliveries uid st in
       let carried := getCarrierDeliveries uid st in
       (dwu_delivery <$> sent)
         ≡ₚ List.filter (λ d, bool_decide (senderId d = uid))
              (DatabaseStorage.deliveries st)
       ∧ (dwu_delivery <$> carried)
           ≡ₚ List.filter (λ d, bool_decide (carrierId d = Some uid))
                (DatabaseStorage.deliveries st)
       ∧ StronglySorted not_older (dwu_delivery <$> sent)
       ∧ StronglySorted not_older (dwu_delivery <$> carried)
       ∧ ∀ x o, x ∈ sent ∨ x ∈ carried →
           dwu_sender x = Some o ∨ dwu_carrier x = Some o →
           dom o ⊆ public_fields ∧ "password" ∉ dom o).
Proof.
  split; intros st sent carried; subst sent carried.
  - change (getSenderDeliveries uid st)
      with (MemStorageRest.getSenderDeliveries uid st).
    change (getCarrierDeliveries uid st)
      with (MemStorageRest.getCarrierDeliveries uid st).
    rewrite Mem_sender_listing, Mem_carrier_listing.
    split_and!; try apply Array_sort_perm; try apply Array_sort_newest_first.
    intros x o Hx Ho.
    assert (dom o ⊆ public_fields) as Hdom;
      [|split; [done|by apply password_not_in_public]].
    destruct Hx as [(d & -> & _)%list_elem_of_fmap
                   |(d & -> & _)%list_elem_of_fmap];
      cbn in Ho; destruct Ho as [(u & _ & ->)%fmap_Some|(u & _ & ->)%fmap_Some];
      by rewrite dom_userSafe.
  - change (getSenderDeliveries uid st)
      with (DatabaseStorageRest.getSenderDeliveries uid st).
    change (getCarrierDeliveries uid st)
      with (DatabaseStorageRest.getCarrierDeliveries uid st).
    rewrite DB_sender_listing, DB_carrier_listing.
    split_and!; try apply Array_sort_perm; try apply Array_sort_newest_first.
    intros x o Hx Ho.
    assert (dom o ⊆ public_fields) as Hdom;
      [|split; [done|by apply password_not_in_public]].
    destruct Hx as [(d & -> & _)%list_elem_of_fmap
                   |(d & -> & _)%list_elem_of_fmap];
      cbn [dwu_sender dwu_carrier] in Ho; destruct Ho as [Ho|Ho].
    + injection Ho as <-. apply dom_id_object.
    + destruct (truthy_num _); [|done].
      apply fmap_Some in Ho as (u & _ & ->). apply dom_userColumns.
    + apply fmap_Some in Ho as (u & _ & ->). apply dom_userColumns.
    + injection Ho as <-. apply dom_id_object.
Qed.

Lemma keyed_elem_of {V} (id_of : V → Z) next (m : JsMap.t V) (v : V) :
  keyed id_of next m →
  v ∈ JsMap.values m ↔ JsMap.get (id_of v) m = Some v.
Proof.
  unfold JsMap.values, JsMap.get. intros [Hall Hnd].
  induction Hall as [|[k x] m [Hk Hlt] Hall IH]; [by rewrite elem_of_nil|].
  rewrite fmap_cons in Hnd. apply NoDup_cons in Hnd as [Hkm Hnd].
  simpl in Hk, Hkm |- *. rewrite elem_of_cons, (IH Hnd).
  case_bool_decide as Hid; simpl.
  - split; [|intros [= ->]; by left].
    intros [->|Hfind]; [done|]. destruct Hkm.
    destruct (List.find _ m) as [[k' x']|] eqn:Hf; [|done].
    apply find_some in Hf as [Hin Hk']. apply bool_decide_eq_true in Hk'.
    simpl in Hk'. apply list_elem_of_fmap. exists (k', x').
    split; [simpl; congruence|by apply list_elem_of_In].
  - split; [|by right]. intros [->|Hfind]; [done|exact Hfind].
Qed.

Lemma Mem_run_keyed (qs : list Request) (st : MemStorage.t) :
  Mem_deliveries_keyed st → Mem_deliveries_keyed (run qs st).
Proof.
  revert st. induction qs as [|q qs IH]; intros st Hkeyed; [done|].
  apply IH. by apply Mem_handle_evolves.
Qed.

Lemma Mem_stays_stored (qs : list Request) (st : MemStorage.t) d0 :
  Mem_deliveries_keyed st →
  d0 ∈ JsMap.values (MemStorage.deliveriesData st) →
  ∃ s, set_status s d0
       ∈ JsMap.values (MemStorage.deliveriesData (run qs st)).
Proof.
  intros Hkeyed Hin.
  apply (keyed_elem_of delivery_id _ _ _ Hkeyed) in Hin.
  pose proof (Mem_run_evolves qs st Hkeyed (delivery_id d0)) as Hev.
  unfold MemStorage.getDeliveryById in Hev. rewrite Hin in Hev.
  destruct (JsMap.get (delivery_id d0) (MemStorage.deliveriesData (run qs st)))
    as [d|] eqn:Hget; [|done].
  simpl in Hev. exists (status d). rewrite <- Hev.
  apply (keyed_elem_of delivery_id _ _ _ (Mem_run_keyed qs st Hkeyed)).
  by rewrite Hev at 1.
Qed.

(** X11. Whatever requests the in-memory store serves, a delivery never leaves
    the list of sent deliveries of its sender or the list of carried
    deliveries of its carrier: it stays there with at most its status
    changed. *)
Theorem own_lists_never_shrink (qs : list Request) (st : MemStorage.t)
    (uid : Z) (d0 : Delivery) :
  Mem_deliveries_keyed st →
  (d0 ∈ dwu_delivery <$> getSenderDeliveries uid st →
   ∃ s, set_status s d0 ∈ dwu_delivery <$> getSenderDeliveries uid (run qs st))
  ∧ (d0 ∈ dwu_delivery <$> getCarrierDeliveries uid st →
     ∃ s, set_status s d0
          ∈ dwu_delivery <$> getCarrierDeliveries uid (run qs st)).
Proof.
  intros Hkeyed.
  change (getSenderDeliveries uid ?s)
    with (MemStorageRest.getSenderDeliveries uid s).
  change (getCarrierDeliveries uid ?s)
    with (MemStorageRest.getCarrierDeliveries uid s).
  rewrite !Mem_sender_listing, !Mem_carrier_listing.
  split; intros [Hp Hin]%elem_of_Array_sort_filter;
    destruct (Mem_stays_stored qs st d0 Hkeyed Hin) as [s Hs];
    exists s; apply elem_of_Array_sort_filter; by split.
Qed.

Lemma own_lists_never_shrink_witness :
  let qs :=
    [PatchStatus 2 2 (status_body picked);
     PatchStatus 3 2 (status_body requested)] in
  let st := MemStorage.new 0 in
  ∃ d0,
    Mem_deliveries_keyed st
    ∧ d0 ∈ dwu_delivery <$> getCarrierDeliveries 2 st
    ∧ ∃ s, set_status s d0
           ∈ dwu_delivery <$> getCarrierDeliveries 2 (run qs st).
Proof.
  intros qs st.
  assert (∃ d0, MemStorage.getDeliveryById 2 st = Some d0) as [d0 Hd0].
  { eexists. vm_compute. reflexivity. }
  exists d0.
  assert (d0 ∈ dwu_delivery <$> getCarrierDeliveries 2 st) as Hin.
  { change (getCarrierDeliveries 2 st)
      with (MemStorageRest.getCarrierDeliveries 2 st).
    rewrite Mem_carrier_listing. apply elem_of_Array_sort_filter.
    pose proof Hd0 as Hget. vm_compute in Hd0. injection Hd0 as <-.
    split; [by vm_compute|].
    by apply (keyed_elem_of delivery_id _ _ _ (Mem_new_keyed 0)). }
  split; [apply Mem_new_keyed|]. split; [exact Hin|].
  exact (proj2 (own_lists_never_shrink qs st 2 d0 (Mem_new_keyed 0)) Hin).
Defined.

(** ** The details page and the review route *)

Lemma insertReviewSchema_page_body uid id e rating comment :
  insertReviewSchema
    (<["reviewerId" := JNum uid]>
     (<["rating" := JNum rating]>
     (<["comment" := JStr comment]>
     (<["deliveryId" := JNum id]>
     (<["revieweeId" := JNum e]> (∅ : jsobject))))))
  = Some (mkInsertReview id uid e rating (Some comment)).
Proof. done. Qed.

(** X16. Whenever the details page lets the user submit its review form (the
    user is the sender or the carrier of the delivery it has fetched, the
    delivery is [delivered], the form passes [reviewSchema] and the other
    party has a truthy id), the rating sent is from 1 to 5 and the
    request is never refused for the delivery, the participant or the
    reviewee: it is answered 201 with the review created for the other
    party, or, when the user has reviewed the delivery before, 400 "You
    have already reviewed this delivery". Either storage. *)
Theorem page_review_is_accepted {S} `{IStorage S}
    (uid id : Z) (d : Delivery) (rating : Z) (comment : string)
    (body : jsobject) (now : Z) (st : S) :
  getDeliveryById id st = Some d →
  page_review_body uid id d rating comment = Some body →
  1 ≤ rating ≤ 5
  ∧ ∃ e, other_party d uid e
      ∧ post_reviews uid body now st
        = match getReviewByDeliveryAndReviewer id uid st with
          | Some _ =>
              (st, Message 400 "You have already reviewed this delivery")
          | None =>
              let '(st', review) :=
                createReview (mkInsertReview id uid e rating (Some comment))
                  now st in
              (st', Json 201 review)
          end.
Proof.
  intros Hget Hpage. unfold page_review_body in Hpage.
  destruct (_ && reviewSchema rating comment) eqn:Hshown; [|done].
  apply andb_true_iff in Hshown as [Hshown Hschema].
  apply andb_true_iff in Hshown as [Hinvolved Hdelivered].
  apply bool_decide_eq_true in Hdelivered.
  unfold reviewSchema in Hschema.
  apply andb_true_iff in Hschema as [Hschema _].
  apply andb_true_iff in Hschema as [Hlo%bool_decide_eq_true
                                      Hhi%bool_decide_eq_true].
  split; [done|].
  destruct (if bool_decide (uid = senderId d) then carrierId d
            else Some (senderId d)) as [e|] eqn:He; [|done].
  destruct (truthy_num (Some e)); [|done]. injection Hpage as <-.
  exists e. split.
  { unfold other_party. destruct (decide (uid = senderId d)) as [Hs|Hs].
    - rewrite bool_decide_eq_true_2 in He by done. split; [done|].
      intros Hc. rewrite He in Hc. injection Hc as ->. done.
    - rewrite bool_decide_eq_false_2 in He by done. injection He as <-.
      by split. }
  unfold post_reviews. rewrite insertReviewSchema_page_body.
  unfold submitReview. cbn [ir_deliveryId ir_revieweeId]. rewrite Hget.
  rewrite (bool_decide_eq_true_2 _ Hdelivered). cbn [negb].
  rewrite He, (bool_decide_eq_true_2 (Some e = Some e)) by done.
  cbn [negb].
  assert (negb (bool_decide (Some uid = carrierId d))
          && negb (bool_decide (uid = senderId d)) = false) as ->.
  { apply orb_true_iff in Hinvolved as [->| ->]; [|done].
    by rewrite andb_false_r. }
  done.
Qed.

Lemma page_review_is_accepted_witness :
  let st := run [PatchStatus 2 1 (status_body delivered)] (MemStorage.new 0) in
  ∃ d body,
    getDeliveryById 1 st = Some d
    ∧ page_review_body 2 1 d 4 "Thanks" = Some body
    ∧ 1 ≤ 4 ≤ 5
    ∧ ∃ e, other_party d 2 e
        ∧ post_reviews 2 body 7 st
          = match getReviewByDeliveryAndReviewer 1 2 st with
            | Some _ =>
                (st, Message 400 "You have already reviewed this delivery")
            | None =>
                let '(st', review) :=
                  createReview (mkInsertReview 1 2 e 4 (Some "Thanks")) 7 st in
                (st', Json 201 review)
            end.
Proof.
  intros st.
  assert (∃ d, getDeliveryById 1 st = Some d) as [d Hget].
  { eexists. vm_compute. reflexivity. }
  assert (∃ body, page_review_body 2 1 d 4 "Thanks" = Some body)
    as [body Hpage].
  { pose proof Hget as Hd. vm_compute in Hd. injection Hd as <-.
    eexists. vm_compute. reflexivity. }
  exists d, body. split; [exact Hget|]. split; [exact Hpage|].
  exact (page_review_is_accepted 2 1 d 4 "Thanks" body 7 st Hget Hpage).
Defined.

(** ** The same status request, twice *)

Lemma predecessor_irrefl (s : DeliveryStatus) : predecessor s ≠ Some s.
Proof. by destruct s. Qed.

Lemma status_rules_parties uid s s' d :
  status_rules uid s d = None →
  uid = senderId (set_status s' d) ∨ carrierId (set_status s' d) = Some uid.
Proof. intros Hrules%status_rules_None_iff. by destruct Hrules. Qed.

(** X5. A status request that was answered 200 and is sent again at once: for
    a target other than [requested] the second one is refused as an
    invalid transition and changes nothing; for the target [requested] it
    is answered 200 again, with the same delivery, and no delivery reads
    differently afterwards. Either storage. *)
Theorem repeated_status_request {S} `{DeliveryStorage S}
    (uid id : Z) (s : DeliveryStatus) (st : S) :
  let '(st1, r1) := patch_delivery_status uid id (status_body s) st in
  let '(st2, r2) := patch_delivery_status uid id (status_body s) st1 in
  succeeds r1 →
  if bool_decide (s = requested)
  then r2 = r1 ∧ ∀ id', getDeliveryById id' st2 = getDeliveryById id' st1
  else error_kind r2 = Some InvalidTransition ∧ st2 = st1.
Proof.
  pose proof (patch_cases uid id s st) as Hcases.
  pose proof (λ d, patch_passed uid id s d st) as Hpassed.
  destruct (patch_delivery_status uid id (status_body s) st) as [st1 r1].
  pose proof (λ d, patch_passed uid id s d st1) as Hagain.
  destruct (patch_delivery_status uid id (status_body s) st1) as [st2 r2]
    eqn:Hsecond.
  intros Hok. apply Hcases in Hok as (d & Hget & Hrules).
  destruct (Hpassed d Hget Hrules) as [Hr1 Hread]. cbn [fst snd] in Hr1, Hread.
  assert (getDeliveryById id st1 = Some (set_status s d)) as Hget1.
  { by rewrite Hread, bool_decide_eq_true_2. }
  case_bool_decide as Hs.
  - subst s.
    destruct (Hagain _ Hget1) as [Hr2 Hread2].
    { apply status_rules_requested. by eapply status_rules_parties. }
    cbn [fst snd] in Hr2, Hread2. split; [by rewrite Hr1, Hr2|].
    intros id'. rewrite Hread2. case_bool_decide; by subst.
  - destruct (status_rules_wrong_source uid s (set_status s d))
      as (r & Hr & Hkind); [by eapply status_rules_parties|done| |].
    { cbn [set_status status]. apply predecessor_irrefl. }
    unfold patch_delivery_status in Hsecond.
    rewrite body_status_status_body, Hget1, Hr in Hsecond.
    by simplify_eq.
Qed.

Lemma repeated_status_request_witness :
  let '(st1, r1) :=
    patch_delivery_status 2 2 (status_body picked) (MemStorage.new 0) in
  let '(st2, r2) := patch_delivery_status 2 2 (status_body picked) st1 in
  succeeds r1 ∧ error_kind r2 = Some InvalidTransition ∧ st2 = st1.
Proof.
  pose proof (repeated_status_request 2 2 picked (MemStorage.new 0)) as Htwice.
  destruct (patch_delivery_status 2 2 (status_body picked) (MemStorage.new 0))
    as [st1 r1] eqn:Hfirst.
  destruct (patch_delivery_status 2 2 (status_body picked) st1) as [st2 r2].
  assert (succeeds r1) as Hok.
  { change r1 with (st1, r1).2. rewrite <- Hfirst. by vm_compute. }
  split; [exact Hok|exact (Htwice Hok)].
Defined.

(** ** The form that creates a delivery *)

(** X19. The form that creates a delivery never sends a request: its resolver
    is [createDeliverySchema], which asks for a number [senderId], and
    the values of the form have no [senderId] (the route adds it to the
    body on the server, before it parses with the same schema). *)
Theorem create_form_is_never_submitted (uid : Z) (values : jsobject)
    (now : Z) :
  dom values ⊆ form_fields →
  CreateDeliveryForm_submit uid values now = None.
Proof.
  intros Hdom. unfold CreateDeliveryForm_submit.
  assert (values !! "senderId" = None) as Hsender.
  { apply not_elem_of_dom. intros Hin%Hdom. revert Hin.
    apply (bool_decide_unpack _). by vm_compute. }
  unfold createDeliverySchema, zod_number. by rewrite Hsender.
Qed.

Lemma create_form_is_never_submitted_witness :
  let values : jsobject :=
    <["pickupLocation" := JStr "Bangalore"]>
    (<["dropLocation" := JStr "Mumbai"]>
    (<["packageSize" := JStr "medium"]>
    (<["packageWeight" := JNum 1000]>
    (<["preferredDeliveryDate" := JStr "2024-01-01"]>
    (<["preferredDeliveryTime" := JStr "Before 6:00 PM"]>
    (<["deliveryFee" := JNum 30000]>
    (<["description" := JStr EmptyString]>
    (<["specialInstructions" := JStr EmptyString]> ∅)))))))) in
  dom values ⊆ form_fields
  ∧ CreateDeliveryForm_submit 1 values 0 = None
  ∧ ∃ st' d, post_deliveries 1 values 0 (MemStorage.new 0)
             = (st', Json 201 d).
Proof.
  intros values.
  assert (dom values ⊆ form_fields) as Hdom.
  { apply (bool_decide_unpack _). by vm_compute. }
  split; [exact Hdom|].
  split; [exact (create_form_is_never_submitted 1 values 0 Hdom)|].
  eexists _, _. vm_compute. reflexivity.
Defined.

(** ** Users of the in-memory store *)

Lemma find_values_set {V} (p : V → bool) (k : Z) (v : V) (m : JsMap.t V) :
  p v = true → (∀ x, x ∈ JsMap.values m → p x = false) →
  List.find p (JsMap.values (JsMap.set k v m)) = Some v.
Proof.
  intros Hv. unfold JsMap.values.
  induction m as [|[k' x] m IH]; intros Hold; simpl; [by rewrite Hv|].
  case_bool_decide; simpl; [by rewrite Hv|].
  rewrite (Hold x) by (rewrite fmap_cons; apply list_elem_of_here).
  apply IH. intros y Hy. apply Hold. rewrite fmap_cons.
  by apply list_elem_of_further.
Qed.

(** X18. A user created in the in-memory store starts with rating 0 and no
    reviews, is found under the new id, is found under the username when
    no user had that name before, and has a public profile at once, with
    the username and without the [password]. *)
Theorem created_user_is_found (insertUser : InsertUser) (st : MemStorage.t) :
  let '(st', user) := MemStorage.createUser insertUser st in
  MemStorageRest.getUser (user_id user) st' = Some user
  ∧ username user = iu_username insertUser
  ∧ user_rating user = Some 0 ∧ totalReviews user = Some 0
  ∧ (MemStorageRest.getUserByUsername (iu_username insertUser) st = None →
     MemStorageRest.getUserByUsername (iu_username insertUser) st'
     = Some user)
  ∧ ∃ profile, get_user_profile (user_id user) st' = Json 200 profile
               ∧ profile !! "username" = Some (JStr (iu_username insertUser))
               ∧ "password" ∉ dom profile.
Proof.
  unfold MemStorage.createUser. cbv zeta.
  set (user := mkUser _ _ _ _ _ _ _).
  unfold MemStorageRest.getUser, MemStorageRest.getUserByUsername.
  store_simpl. cbn [user_id username user_rating totalReviews user].
  rewrite JsMap_get_set_eq. split_and!; try done.
  - intros Hnone. rewrite find_None_elem_of in Hnone.
    apply find_values_set; [by apply bool_decide_eq_true|exact Hnone].
  - unfold get_user_profile.
    change (getUserProfile ?u ?s) with (MemStorageRest.getUserProfile u s).
    unfold MemStorageRest.getUserProfile. store_simpl.
    rewrite JsMap_get_set_eq. eexists. split; [reflexivity|].
    split; [done|]. destruct (Mem_profile_fields user) as (_ & _ & _ & ->).
    apply password_not_public.
Qed.

(** ** Stored reviews *)

Lemma Mem_reviews_state st st' :
  review_state st' = review_state st → Mem_reviews st' = Mem_reviews st.
Proof. unfold review_state, Mem_reviews. by intros [= _ -> _]. Qed.

Lemma Mem_handle_reviews_prefix (q : Request) (st : MemStorage.t) :
  Mem_fresh_reviewId st →
  Mem_reviews st `prefix_of` Mem_reviews (handle q st).
Proof.
  intros Hfresh.
  destruct q as [uid body now|uid id body|uid body now]; cbn [handle].
  - by rewrite (Mem_reviews_state _ _ (review_state_post_deliveries _ _ _ _)).
  - by rewrite (Mem_reviews_state _ _ (review_state_patch _ _ _ _)).
  - unfold post_reviews. destruct (insertReviewSchema _) as [rd|]; [|done].
    destruct (submitReview_result st uid rd now)
      as [[_ ->]|(code & message & ->)]; [|done].
    cbn [fst].
    change (createReview rd now st) with (MemStorage.createReview rd now st).
    rewrite Mem_createReview_appends by done. by eexists.
Qed.

Lemma Mem_handle_fresh (q : Request) (st : MemStorage.t) :
  Mem_fresh_reviewId st → Mem_fresh_reviewId (handle q st).
Proof.
  intros Hfresh.
  destruct q as [uid body now|uid id body|uid body now]; cbn [handle].
  - pose proof (review_state_post_deliveries uid body now st).
    eauto using Mem_fresh_reviewId_state.
  - pose proof (review_state_patch uid id body st).
    eauto using Mem_fresh_reviewId_state.
  - unfold post_reviews. destruct (insertReviewSchema _) as [rd|]; [|done].
    destruct (submitReview_result st uid rd now)
      as [[_ ->]|(code & message & ->)]; [|done].
    by apply Mem_createReview_fresh.
Qed.

(** X14. The in-memory store never drops, changes or reorders a stored review:
    after any requests, the reviews it held are the first of the reviews
    it holds, in the same order. *)
Theorem reviews_are_append_only (qs : list Request) (st : MemStorage.t) :
  Mem_fresh_reviewId st →
  Mem_reviews st `prefix_of` Mem_reviews (run qs st).
Proof.
  revert st. induction qs as [|q qs IH]; intros st Hfresh; [done|].
  etrans; [by apply Mem_handle_reviews_prefix|].
  by apply IH, Mem_handle_fresh.
Qed.

Lemma reviews_are_append_only_witness :
  let qs :=
    [PatchStatus 2 1 (status_body delivered);
     PostReview 2 (review_body 1 1 4 None) 7] in
  Mem_fresh_reviewId (MemStorage.new 0)
  ∧ Mem_reviews (MemStorage.new 0)
    `prefix_of` Mem_reviews (run qs (MemStorage.new 0)).
Proof.
  intros qs.
  assert (Mem_fresh_reviewId (MemStorage.new 0)) as Hfresh
    by apply Mem_new_consistent.
  split; [exact Hfresh|exact (reviews_are_append_only qs _ Hfresh)].
Defined.

(** ** The profile route and the users of the database *)

Lemma filter_nil_not_elem_of {A} (p : A → bool) (l : list A) :
  (∀ x, x ∈ l → p x = false) → List.filter p l = [].
Proof.
  induction l as [|x l IH]; intros Hall; [done|]. simpl.
  rewrite (Hall x) by apply list_elem_of_here.
  apply IH. intros y Hy. by apply Hall, list_elem_of_further.
Qed.

Lemma dom_profileColumns (u : User) :
  dom (DatabaseStorageRest.profileColumns u) = public_fields.
Proof.
  unfold DatabaseStorageRest.profileColumns, public_fields.
  rewrite !dom_insert_L, dom_empty_L. set_solver.
Qed.

(** X20. GET /api/users/:id/profile answers 404 "User not found" exactly
    when the storage has no user of that id, and otherwise 200 with the
    stored user cut down to the public fields: never the [password].
    From the database the profile carries the id that was asked for.
    Both storages. *)
Theorem profile_route_answers (uid : Z) :
  (∀ st : MemStorage.t,
     match get_user_profile uid st with
     | Json code profile =>
         code = 200
         ∧ ∃ u, MemStorageRest.getUser uid st = Some u
                ∧ profile = delete "password" (user_object u)
                ∧ dom profile = public_fields ∧ "password" ∉ dom profile
     | Message code message =>
         code = 404 ∧ message = "User not found"
         ∧ MemStorageRest.getUser uid st = None
     end)
  ∧ (∀ st : DatabaseStorage.t,
       match get_user_profile uid st with
       | Json code profile =>
           code = 200
           ∧ ∃ u, DatabaseStorageRest.getUser uid st = Some u
                  ∧ profile !! "id" = Some (JNum uid)
                  ∧ dom profile = public_fields ∧ "password" ∉ dom profile
       | Message code message =>
           code = 404 ∧ message = "User not found"
           ∧ DatabaseStorageRest.getUser uid st = None
       end).
Proof.
  split; intros st; unfold get_user_profile.
  - change (getUserProfile uid st)
      with (MemStorageRest.getUserProfile uid st).
    unfold MemStorageRest.getUserProfile, MemStorageRest.getUser.
    destruct (JsMap.get uid (MemStorage.usersData st)) as [u|]; [|done].
    split; [done|]. exists u. split; [done|]. split; [done|].
    destruct (Mem_profile_fields u) as (_ & _ & _ & Hdom).
    split; [exact Hdom|]. rewrite Hdom. apply password_not_public.
  - change (getUserProfile uid st)
      with (DatabaseStorageRest.getUserProfile uid st).
    unfold DatabaseStorageRest.getUserProfile, DatabaseStorageRest.getUser.
    destruct (head _) as [u|] eqn:Hhead; [|done].
    cbn [fmap option_fmap option_map]. split; [done|]. exists u.
    split; [done|].
    apply head_Some_elem_of, list_elem_of_In, filter_In in Hhead
      as [_ Hid%bool_decide_eq_true].
    split; [by rewrite <- Hid|].
    rewrite dom_profileColumns. split; [done|apply password_not_public].
Qed.

(** X21. A user that the database accepts (the username is not taken;
    [users.username] is unique) starts without a rating and with 0
    reviews, and is found at once under the username and, the stored ids
    being below the sequence, under the new id. *)
Theorem database_created_user_is_found (insertUser : InsertUser)
    (st st' : DatabaseStorage.t) (user : User) :
  DatabaseStorageRest.createUser insertUser st = Some (st', user) →
  user_rating user = None ∧ totalReviews user = Some 0
  ∧ DatabaseStorageRest.getUserByUsername (iu_username insertUser) st'
    = Some user
  ∧ (Forall (λ u, user_id u < DatabaseStorage.users_id_seq st)
       (DatabaseStorage.users st) →
     DatabaseStorageRest.getUser (user_id user) st' = Some user).
Proof.
  unfold DatabaseStorageRest.createUser. case_bool_decide as Htaken; [done|].
  intros [= <- <-]. split; [done|]. split; [done|].
  unfold DatabaseStorageRest.getUserByUsername, DatabaseStorageRest.getUser.
  store_simpl. cbn [username user_id]. rewrite !List.filter_app. split.
  - rewrite filter_nil_not_elem_of.
    + simpl. by rewrite bool_decide_eq_true_2.
    + intros x Hx. apply bool_decide_eq_false_2. intros Hname.
      apply Htaken. rewrite <- Hname. by apply list_elem_of_fmap_2.
  - intros Hbelow. rewrite filter_nil_not_elem_of.
    + simpl. by rewrite bool_decide_eq_true_2.
    + intros x Hx. apply bool_decide_eq_false_2.
      rewrite Forall_forall in Hbelow. specialize (Hbelow x Hx). lia.
Qed.

Lemma database_created_user_is_found_witness :
  let st := DatabaseStorage.mk [] [] [] 1 1 1 in
  let insertUser := mkInsertUser "john_sender" "password123" "John" sender in
  ∃ st' user,
    DatabaseStorageRest.createUser insertUser st = Some (st', user)
    ∧ user_rating user = None ∧ totalReviews user = Some 0
    ∧ DatabaseStorageRest.getUserByUsername "john_sender" st' = Some user
    ∧ (Forall (λ u, user_id u < DatabaseStorage.users_id_seq st)
         (DatabaseStorage.users st) →
       DatabaseStorageRest.getUser (user_id user) st' = Some user).
Proof.
  intros st insertUser.
  assert (∃ st' user,
            DatabaseStorageRest.createUser insertUser st = Some (st', user))
    as (st' & user & Hcreate).
  { eexists _, _. vm_compute. reflexivity. }
  exists st', user. split; [exact Hcreate|].
  exact (database_created_user_is_found insertUser st st' user Hcreate).
Defined.

(** ** Acceptance is a read, then a write *)







